(** * Caesar cipher tool (src/main.py): shallow embedding and verification

    The development follows the Python source.  A Python [str] is a sequence
    of Unicode code points, a Python [int] is an unbounded integer, a raised
    exception is the [Raise] result of a computation, the insertion-ordered
    [dict] is an association list, and the file helpers run in a small
    state-and-exception monad over the file system and standard output.
    The interactive shell runs in a second monad, over the file system, the
    keys the user types and what the screen shows. *)

From Stdlib Require Import ZArith List Bool String Ascii Lia DecimalString.
Import ListNotations.
Open Scope char_scope.
Open Scope Z_scope.

(** ** Python values *)

(** A character is its code point ([ord]); a [str] is a list of them. *)
Definition char := Z.
Definition str := list char.

Definition ord (c : char) : Z := c.

(** A character literal of the source, such as ['A']. *)
Definition char_of (a : ascii) : char := Z.of_N (N_of_ascii a).

(** The code points of an ASCII literal of the source. *)
Fixpoint lit (s : string) : str :=
  match s with
  | EmptyString => []
  | String a s' => Z.of_N (N_of_ascii a) :: lit s'
  end.

(** [str(n)] for an [int]. *)
Definition str_of_int (n : Z) : str := lit (NilZero.string_of_int (Z.to_int n)).

(** The exceptions the program meets, with [str(e)].  [KeyboardInterrupt] is
    the one that is not a subclass of [Exception]. *)
Inductive exn : Type :=
| ValueError (msg : str)
| FileNotFoundError (msg : str)
| PermissionError (msg : str)
| OSError (msg : str)
| KeyboardInterrupt.

Definition is_Exception (e : exn) : bool :=
  match e with
  | KeyboardInterrupt => false
  | _ => true
  end.

Definition exn_str (e : exn) : str :=
  match e with
  | ValueError m | FileNotFoundError m | PermissionError m | OSError m => m
  | KeyboardInterrupt => []
  end.

Inductive result (A : Type) : Type :=
| Ok (a : A)
| Raise (e : exn).
Arguments Ok {A} a.
Arguments Raise {A} e.

Definition bind {A B} (m : result A) (k : A -> result B) : result B :=
  match m with
  | Ok a => k a
  | Raise e => Raise e
  end.

Notation "x <- m ;; k" := (bind m (fun x => k))
  (at level 61, m at next level, right associativity).

(** [for x in l: s = body(s, x)], stopping at the first exception. *)
Fixpoint for_each {A S} (l : list A) (body : S -> A -> result S) (s : S) : result S :=
  match l with
  | [] => Ok s
  | x :: l' => s' <- body s x ;; for_each l' body s'
  end.

(** [chr(n)]: a [ValueError] outside the Unicode range. *)
Definition chr (n : Z) : result char :=
  if (0 <=? n) && (n <=? 1114111) then Ok n
  else Raise (ValueError (lit "chr() arg not in range(0x110000)")).

(** [range(a, b)]. *)
Definition range (a b : Z) : list Z :=
  map (fun i => a + Z.of_nat i) (seq 0 (Z.to_nat (b - a))).

(** A [dict]: keys in insertion order; assigning to a present key keeps its
    place and replaces its value. *)
Definition dict (V : Type) := list (Z * V).

Fixpoint dict_set {V} (d : dict V) (k : Z) (v : V) : dict V :=
  match d with
  | [] => [(k, v)]
  | (k', v') :: d' => if k' =? k then (k', v) :: d' else (k', v') :: dict_set d' k v
  end.

Fixpoint dict_get {V} (d : dict V) (k : Z) : option V :=
  match d with
  | [] => None
  | (k', v') :: d' => if k' =? k then Some v' else dict_get d' k
  end.

Definition dict_keys {V} (d : dict V) : list Z := map fst d.

(** ** The character predicates of [str]

    [isalpha], [isupper] and [islower] consult the Unicode character
    database, which is not part of the repository.  The development is
    parametric in it and assumes only what the database says about ASCII,
    and that no character is both upper and lower case. *)

Definition in_range (lo hi c : Z) : bool := (lo <=? c) && (c <=? hi).

Definition ascii_isupper (c : char) : bool := in_range 65 90 c.
Definition ascii_islower (c : char) : bool := in_range 97 122 c.
Definition ascii_isalpha (c : char) : bool := ascii_isupper c || ascii_islower c.

Record unicode_db : Type := {
  isalpha : char -> bool;
  isupper : char -> bool;
  islower : char -> bool;
  isalpha_ascii : forall c, 0 <= c < 128 -> isalpha c = ascii_isalpha c;
  isupper_ascii : forall c, 0 <= c < 128 -> isupper c = ascii_isupper c;
  islower_ascii : forall c, 0 <= c < 128 -> islower c = ascii_islower c;
  upper_not_lower : forall c, isupper c = true -> islower c = false
}.

(** The database on Latin-1 (code points 0 to 255): the letters are A-Z, a-z,
    U+00AA, U+00B5, U+00BA, U+00C0 to U+00D6, U+00D8 to U+00F6 and U+00F8 to
    U+00FF; U+00D7 and U+00F7 are the multiplication and division signs.
    Beyond U+00FF this table answers [false]: it is used to run the program
    on Latin-1 inputs only. *)
Definition latin1_isupper (c : char) : bool :=
  in_range 65 90 c || in_range 192 214 c || in_range 216 222 c.
Definition latin1_islower (c : char) : bool :=
  in_range 97 122 c || (c =? 170) || (c =? 181) || (c =? 186)
  || in_range 223 246 c || in_range 248 255 c.
Definition latin1_isalpha (c : char) : bool := latin1_isupper c || latin1_islower c.

Ltac ranges :=
  unfold latin1_isalpha, latin1_isupper, latin1_islower,
    ascii_isalpha, ascii_isupper, ascii_islower, in_range in *;
  lia.

Definition latin1_db : unicode_db.
Proof.
  refine {| isalpha := latin1_isalpha;
            isupper := latin1_isupper;
            islower := latin1_islower |}; intros; ranges.
Defined.

(** The same table with the ideographs U+4E00 to U+9FA5 added: the database
    gives them the category Lo, so [isalpha] answers [True] for them, and
    they have no case. *)
Definition cjk_isalpha (c : char) : bool :=
  latin1_isalpha c || in_range 19968 40869 c.

Definition cjk_db : unicode_db.
Proof.
  refine {| isalpha := cjk_isalpha;
            isupper := latin1_isupper;
            islower := latin1_islower |}; intros; unfold cjk_isalpha; ranges.
Defined.

(** ** [os.path.splitext]

    The standard library's [genericpath._splitext], which [posixpath] calls
    with separator [/] and [ntpath] with separator [\] and alternative
    separator [/]; the extension separator is the dot. *)

(** [p.rfind(c)] for a one-character [c]: the last index, or -1. *)
Fixpoint rfind_from (p : str) (c : char) (i last : Z) : Z :=
  match p with
  | [] => last
  | x :: p' => rfind_from p' c (i + 1) (if x =? c then i else last)
  end.

Definition rfind (p : str) (c : char) : Z := rfind_from p c 0 (-1).

Definition len (p : str) : Z := Z.of_nat (List.length p).

(** A slice bound, as Python clamps it. *)
Definition clamp (p : str) (i : Z) : nat :=
  Z.to_nat (if i <? 0 then Z.max 0 (i + len p) else Z.min i (len p)).

(** [p[i:j]], [p[:j]] and [p[i:]]. *)
Definition slice (p : str) (i j : Z) : str :=
  firstn (clamp p j - clamp p i) (skipn (clamp p i) p).
Definition slice_to (p : str) (j : Z) : str := firstn (clamp p j) p.
Definition slice_from (p : str) (i : Z) : str := skipn (clamp p i) p.

Definition str_eqb (a b : str) : bool :=
  if list_eq_dec Z.eq_dec a b then true else false.

(** The [while filenameIndex < dotIndex] loop; [n] counts the iterations
    left, [dotIndex - filenameIndex] of them at most. *)
Fixpoint skip_leading_dots (n : nat) (p : str) (extsep : char)
    (dotIndex filenameIndex : Z) : str * str :=
  match n with
  | O => (p, slice_to p 0)
  | S n' =>
      if filenameIndex <? dotIndex then
        if negb (str_eqb (slice p filenameIndex (filenameIndex + 1)) [extsep]) then
          (slice_to p dotIndex, slice_from p dotIndex)
        else skip_leading_dots n' p extsep dotIndex (filenameIndex + 1)
      else (p, slice_to p 0)
  end.

Definition _splitext (p : str) (sep : char) (altsep : option char) (extsep : char)
    : str * str :=
  let sepIndex := rfind p sep in
  let sepIndex :=
    match altsep with
    | Some a => Z.max sepIndex (rfind p a)
    | None => sepIndex
    end in
  let dotIndex := rfind p extsep in
  if dotIndex >? sepIndex then
    let filenameIndex := sepIndex + 1 in
    skip_leading_dots (Z.to_nat (dotIndex - filenameIndex)) p extsep dotIndex filenameIndex
  else (p, slice_to p 0).

Inductive os_path : Type := posixpath | ntpath.

Definition splitext (os : os_path) (p : str) : str * str :=
  match os with
  | posixpath => _splitext p 47 None 46
  | ntpath => _splitext p 92 (Some 47) 46
  end.

(** ** Files and standard output

    What [open], [read] and [write] do depends on the machine; the model
    takes it as given.  [read_text fs p] is
    [with open(p, 'r', encoding='utf-8') as file: file.read()] and
    [write_text fs p c] is [with open(p, 'w', encoding='utf-8') as file:
    file.write(c)], which may change the file system even when it raises. *)
Record os_model : Type := {
  FS : Type;
  os_path_module : os_path;
  read_text : FS -> str -> result str;
  write_text : FS -> str -> str -> FS * result unit
}.

Record world (os : os_model) : Type := {
  fs : FS os;
  stdout : list str
}.
Arguments fs {os} w.
Arguments stdout {os} w.

(** Computations that read and write the world and may raise. *)
Definition io (os : os_model) (A : Type) : Type := world os -> world os * result A.

Definition io_ret {os A} (a : A) : io os A := fun w => (w, Ok a).

Definition io_bind {os A B} (m : io os A) (k : A -> io os B) : io os B :=
  fun w =>
    match m w with
    | (w', Ok a) => k a w'
    | (w', Raise e) => (w', Raise e)
    end.

Notation "x <~ m ;; k" := (io_bind m (fun x => k))
  (at level 61, m at next level, right associativity).

Definition io_lift {os A} (r : result A) : io os A := fun w => (w, r).

Definition open_read {os} (path : str) : io os str :=
  fun w => (w, read_text os (fs w) path).

Definition open_write {os} (path content : str) : io os unit :=
  fun w =>
    let (fs', r) := write_text os (fs w) path content in
    ({| fs := fs'; stdout := stdout w |}, r).

Definition print {os} (line : str) : io os unit :=
  fun w => ({| fs := fs w; stdout := stdout w ++ [line] |}, Ok tt).

(** [try: body  except ...: handler]: [handler e] is [None] when no clause
    matches [e], which then propagates. *)
Definition try_except {os A} (body : io os A) (handler : exn -> option (io os A))
    : io os A :=
  fun w =>
    match body w with
    | (w', Ok a) => (w', Ok a)
    | (w', Raise e) =>
        match handler e with
        | Some h => h w'
        | None => (w', Raise e)
        end
    end.

(** An in-memory file system to run the file helpers on: a path holds a
    readable and writable file, or one that access is refused to, or
    nothing. *)
Inductive node : Type :=
| File (content : str)
| Locked.

Definition mem_fs := list (str * node).

Fixpoint mem_lookup (m : mem_fs) (path : str) : option node :=
  match m with
  | [] => None
  | (p, n) :: m' => if str_eqb p path then Some n else mem_lookup m' path
  end.

Definition mem_read (m : mem_fs) (path : str) : result str :=
  match mem_lookup m path with
  | Some (File c) => Ok c
  | Some Locked => Raise (PermissionError (lit "[Errno 13] Permission denied"))
  | None => Raise (FileNotFoundError (lit "[Errno 2] No such file or directory"))
  end.

Definition mem_write (m : mem_fs) (path content : str) : mem_fs * result unit :=
  match mem_lookup m path with
  | Some Locked => (m, Raise (PermissionError (lit "[Errno 13] Permission denied")))
  | _ => ((path, File content) :: m, Ok tt)
  end.

Definition mem_os (flavour : os_path) : os_model := {|
  FS := mem_fs;
  os_path_module := flavour;
  read_text := mem_read;
  write_text := mem_write
|}.

(** U+274C, the cross mark that starts the error lines. *)
Definition cross_mark : char := 10060.

(** ** class CaesarCipher *)
Module CaesarCipher.

Record t : Type := {
  alphabet_size : Z;
  min_shift : Z;
  max_shift : Z
}.

Definition __init__ : t :=
  {| alphabet_size := 26; min_shift := 1; max_shift := 25 |}.

Section Methods.
Variable db : unicode_db.
Variable self : t.

Definition cipher (text : str) (shift : Z) (decrypt : bool) : result str :=
  if negb ((min_shift self <=? shift) && (shift <=? max_shift self)) then
    Raise (ValueError (lit "Shift must be between " ++ str_of_int (min_shift self)
                         ++ lit " and " ++ str_of_int (max_shift self)))
  else
    let shift := if decrypt then - shift else shift in
    for_each text
      (fun result char =>
         if isalpha db char then
           let base := if isupper db char then ord (char_of "A") else ord (char_of "a") in
           let shifted := (ord char - base + shift) mod alphabet_size self + base in
           c <- chr shifted ;;
           Ok (result ++ [c])
         else
           Ok (result ++ [char]))
      [].

Definition encrypt (text : str) (shift : Z) : result str :=
  cipher text shift false.

Definition decrypt (text : str) (shift : Z) : result str :=
  cipher text shift true.

Definition brute_force_decrypt (encrypted_text : str) : result (dict str) :=
  for_each (range (min_shift self) (max_shift self + 1))
    (fun results shift =>
       decrypted <- decrypt encrypted_text shift ;;
       Ok (dict_set results shift decrypted))
    [].

Section Files.
Variable os : os_model.

(** The three [except] clauses, which [encrypt_file] and [decrypt_file]
    both end with. *)
Definition report_errors (input_file : str) (e : exn) : option (io os bool) :=
  match e with
  | FileNotFoundError _ =>
      Some (_ <~ print (cross_mark :: lit " Error: File '" ++ input_file
                          ++ lit "' not found.") ;;
            io_ret false)
  | PermissionError _ =>
      Some (_ <~ print (cross_mark :: lit " Error: Permission denied accessing file.") ;;
            io_ret false)
  | _ =>
      if is_Exception e then
        Some (_ <~ print (cross_mark :: lit " Error: " ++ exn_str e) ;;
              io_ret false)
      else None
  end.

Definition encrypt_file (input_file : str) (shift : Z) (output_file : option str)
    : io os bool :=
  try_except
    (content <~ open_read input_file ;;
     encrypted_content <~ io_lift (encrypt content shift) ;;
     let output_file :=
       match output_file with
       | None =>
           let (name, ext) := splitext (os_path_module os) input_file in
           name ++ lit "_encrypted" ++ ext
       | Some o => o
       end in
     _ <~ open_write output_file encrypted_content ;;
     io_ret true)
    (report_errors input_file).

Definition decrypt_file (input_file : str) (shift : Z) (output_file : option str)
    : io os bool :=
  try_except
    (content <~ open_read input_file ;;
     decrypted_content <~ io_lift (decrypt content shift) ;;
     let output_file :=
       match output_file with
       | None =>
           let (name, ext) := splitext (os_path_module os) input_file in
           name ++ lit "_decrypted" ++ ext
       | Some o => o
       end in
     _ <~ open_write output_file decrypted_content ;;
     io_ret true)
    (report_errors input_file).
End Files.
End Methods.

End CaesarCipher.

Import CaesarCipher.

(** ** Notions used in the statements *)

(** What the loop body of [cipher] appends for [c] when the signed shift is
    [k]. *)
Definition rotate (db : unicode_db) (k : Z) (c : char) : char :=
  if isalpha db c then
    let base := if isupper db c then 65 else 97 in
    (c - base + k) mod 26 + base
  else c.

(** The shift after [if decrypt: shift = -shift]. *)
Definition signed (shift : Z) (decrypt : bool) : Z :=
  if decrypt then - shift else shift.

(** [c.isascii()]. *)
Definition is_ascii (c : char) : bool := in_range 0 127 c.

(** [decrypt(encrypt(text, shift), shift)]. *)
Definition roundtrip (db : unicode_db) (text : str) (shift : Z) : result str :=
  r <- encrypt db __init__ text shift ;; decrypt db __init__ r shift.

(** [brute_force_decrypt(encrypt(text, shift))]. *)
Definition brute_force_of_encrypted (db : unicode_db) (text : str) (shift : Z)
    : result (dict str) :=
  r <- encrypt db __init__ text shift ;; brute_force_decrypt db __init__ r.

(** *** The extension of a path

    What "the extension" of a path is, said without [splitext]: the path is
    a directory part, empty or ending in a separator, followed by a last
    component that holds no separator; the extension starts at the last dot
    of that component, provided a character other than a dot comes before
    it in the component.  Otherwise the path has no extension. *)
Definition is_sep (os : os_path) (c : char) : bool :=
  match os with
  | posixpath => c =? 47
  | ntpath => (c =? 92) || (c =? 47)
  end.

Definition last_component (os : os_path) (p dir comp : str) : Prop :=
  p = dir ++ comp
  /\ Forall (fun c => is_sep os c = false) comp
  /\ (dir = [] \/ exists d c, dir = d ++ [c] /\ is_sep os c = true).

Definition has_extension (os : os_path) (p name ext : str) : Prop :=
  exists dir stem rest,
    last_component os p dir (stem ++ 46 :: rest)
    /\ ~ In 46 rest
    /\ Exists (fun c => c <> 46) stem
    /\ name = dir ++ stem
    /\ ext = 46 :: rest.

(** [name] and [ext] are the path without its extension, and its extension,
    which is empty when the path has none. *)
Definition extension_split (os : os_path) (p name ext : str) : Prop :=
  has_extension os p name ext
  \/ (name = p /\ ext = [] /\ forall n e, ~ has_extension os p n e).

(** [encrypt_file] or [decrypt_file], by direction. *)
Definition file_helper (db : unicode_db) (os : os_model) (decrypt : bool)
    : str -> Z -> option str -> io os bool :=
  if decrypt then decrypt_file db __init__ os else encrypt_file db __init__ os.

(** The path written when no output path is given: the suffix goes between
    the two parts [splitext] cuts the input path into. *)
Definition derived_path (os : os_model) (decrypt : bool) (input_file : str) : str :=
  fst (splitext (os_path_module os) input_file)
  ++ (if decrypt then lit "_decrypted" else lit "_encrypted")
  ++ snd (splitext (os_path_module os) input_file).

(** The path a file helper writes to. *)
Definition output_path (os : os_model) (decrypt : bool) (input_file : str)
    (output_file : option str) : str :=
  match output_file with
  | Some o => o
  | None => derived_path os decrypt input_file
  end.


(** The line printed for a caught exception. *)
Definition error_line (input_file : str) (e : exn) : str :=
  match e with
  | FileNotFoundError _ =>
      cross_mark :: lit " Error: File '" ++ input_file ++ lit "' not found."
  | PermissionError _ => cross_mark :: lit " Error: Permission denied accessing file."
  | _ => cross_mark :: lit " Error: " ++ exn_str e
  end.

(** What the [except] clauses make of an exception raised in world [w]. *)
Definition recover {os} (input_file : str) (e : exn) (w : world os)
    : world os * result bool :=
  if is_Exception e then
    ({| fs := fs w; stdout := stdout w ++ [error_line input_file e] |}, Ok false)
  else (w, Raise e).

(** ** The terminal

    The shell reads lines from the keyboard and writes to the screen.  At a
    prompt the user types a line, which may fail to decode, or presses
    Ctrl-C; when the keyboard has nothing left, [input] meets the end of
    file. *)

(** The code points of a UTF-8 literal of the source. *)
Fixpoint utf8_go (bytes : list Z) (need : nat) (acc : Z) : str :=
  match bytes with
  | [] => []
  | b :: bytes' =>
      match need with
      | O =>
          if b <? 128 then b :: utf8_go bytes' 0 0
          else if b <? 224 then utf8_go bytes' 1 (b - 192)
          else if b <? 240 then utf8_go bytes' 2 (b - 224)
          else utf8_go bytes' 3 (b - 240)
      | S O => (acc * 64 + (b - 128)) :: utf8_go bytes' 0 0
      | S need' => utf8_go bytes' need' (acc * 64 + (b - 128))
      end
  end.

Definition u (s : string) : str := utf8_go (lit s) 0 0.

(** The newline character, written [\n] in the source. *)
Definition nl : str := [10].

(** [s * n]. *)
Definition str_mul (s : str) (n : Z) : str := List.concat (repeat s (Z.to_nat n)).

(** [f"{n:2d}"]: [str(n)], padded with spaces on the left to two
    characters. *)
Definition format_2d (n : Z) : str :=
  repeat 32 (2 - List.length (str_of_int n)) ++ str_of_int n.

(** [enumerate(l, start)]. *)
Fixpoint enumerate {A} (l : list A) (start : Z) : list (Z * A) :=
  match l with
  | [] => []
  | x :: l' => (start, x) :: enumerate l' (start + 1)
  end.

(** The methods of [str] and the conversion [int(s)] that the shell uses;
    like the character predicates they belong to Python, and the model is
    parametric in them.  [int_parse s] is [None] when [int(s)] raises
    [ValueError]. *)
Record builtins : Type := {
  str_strip : str -> str;
  str_lower : str -> str;
  int_parse : str -> option Z
}.

(** The builtins on Latin-1 text, to run the shell on such input:
    [strip] removes the white space of Latin-1 at both ends, [lower] maps
    the upper-case letters of Latin-1 to their lower-case letters, and
    [int] reads an optional sign and decimal digits, which single
    underscores may separate, with white space around: its own white space,
    which leaves out U+001C to U+001F, and no more than 4300 digits, the
    interpreter's default limit. *)
Definition latin1_isspace (c : char) : bool :=
  in_range 9 13 c || in_range 28 32 c || (c =? 133) || (c =? 160).

Fixpoint lstrip (s : str) : str :=
  match s with
  | [] => []
  | c :: s' => if latin1_isspace c then lstrip s' else s
  end.

Definition latin1_strip (s : str) : str := rev (lstrip (rev (lstrip s))).

Definition latin1_lower (s : str) : str :=
  map (fun c => if latin1_isupper c then c + 32 else c) s.

Fixpoint digits_value (s : str) (acc : Z) (after_digit : bool) : option Z :=
  match s with
  | [] => if after_digit then Some acc else None
  | c :: s' =>
      if in_range 48 57 c then digits_value s' (acc * 10 + (c - 48)) true
      else if (c =? 95) && after_digit then digits_value s' acc false
      else None
  end.

Definition int_isspace (c : char) : bool :=
  in_range 9 13 c || (c =? 32) || (c =? 133) || (c =? 160).

Fixpoint int_lstrip (s : str) : str :=
  match s with
  | [] => []
  | c :: s' => if int_isspace c then int_lstrip s' else s
  end.

(** [sys.get_int_max_str_digits()], as the interpreter starts. *)
Definition int_max_str_digits : Z := 4300.

Definition int_digits (s : str) : option Z :=
  if Z.of_nat (List.length (filter (in_range 48 57) s)) <=? int_max_str_digits
  then digits_value s 0 false
  else None.

Definition latin1_int (s : str) : option Z :=
  match rev (int_lstrip (rev (int_lstrip s))) with
  | 43 :: s' => int_digits s'
  | 45 :: s' => option_map Z.opp (int_digits s')
  | s' => int_digits s'
  end.

Definition latin1_builtins : builtins := {|
  str_strip := latin1_strip;
  str_lower := latin1_lower;
  int_parse := latin1_int
|}.

(** What a prompt receives: a line, Ctrl-C, or a line whose bytes are not
    valid UTF-8, on which [input] raises [UnicodeDecodeError], a
    [ValueError], with the text [msg]. *)
Inductive key_event : Type :=
| Line (s : str)
| CtrlC
| Undecodable (msg : str).

(** What reaches the screen: a [print]ed line, or the prompt of [input],
    which is written without a newline. *)
Inductive out_event : Type :=
| Print (line : str)
| Prompt (text : str).

(** What unwinds the shell: an exception of the file helpers' kind,
    [EOFError], or the [SystemExit] that [sys.exit] raises. *)
Inductive signal : Type :=
| Exc (e : exn)
| EOFError
| SystemExit (code : Z).

Definition signal_is_Exception (s : signal) : bool :=
  match s with
  | Exc e => is_Exception e
  | EOFError => true
  | SystemExit _ => false
  end.

Definition signal_str (s : signal) : str :=
  match s with
  | Exc e => exn_str e
  | EOFError => lit "EOF when reading a line"
  | SystemExit code => str_of_int code
  end.

(** A loop that was given too few iterations ends in [OutOfFuel]. *)
Inductive outcome (A : Type) : Type :=
| Done (a : A)
| Throw (s : signal)
| OutOfFuel.
Arguments Done {A} a.
Arguments Throw {A} s.
Arguments OutOfFuel {A}.

(** The state of a run: the file system, the screen so far, the keys still
    to come, and the [running] attribute of the shell object. *)
Record session (os : os_model) : Type := {
  disk : FS os;
  screen : list out_event;
  keyboard : list key_event;
  running : bool
}.
Arguments disk {os} s.
Arguments screen {os} s.
Arguments keyboard {os} s.
Arguments running {os} s.

Definition cli (os : os_model) (A : Type) : Type := session os -> session os * outcome A.

Definition cli_ret {os A} (a : A) : cli os A := fun st => (st, Done a).

Definition cli_bind {os A B} (m : cli os A) (k : A -> cli os B) : cli os B :=
  fun st =>
    match m st with
    | (st', Done a) => k a st'
    | (st', Throw s) => (st', Throw s)
    | (st', OutOfFuel) => (st', OutOfFuel)
    end.

Notation "x <~~ m ;; k" := (cli_bind m (fun x => k))
  (at level 61, m at next level, right associativity).

Definition cli_raise {os A} (s : signal) : cli os A := fun st => (st, Throw s).

Definition out_of_fuel {os A} : cli os A := fun st => (st, OutOfFuel).

(** [print(line)] in the shell. *)
Definition cli_print {os} (line : str) : cli os unit :=
  fun st =>
    ({| disk := disk st; screen := screen st ++ [Print line];
        keyboard := keyboard st; running := running st |}, Done tt).

Fixpoint print_lines {os} (lines : list str) : cli os unit :=
  match lines with
  | [] => cli_ret tt
  | line :: lines' => _ <~~ cli_print line ;; print_lines lines'
  end.

(** [input(prompt)]. *)
Definition input {os} (prompt : str) : cli os str :=
  fun st =>
    let shown := screen st ++ [Prompt prompt] in
    match keyboard st with
    | [] =>
        ({| disk := disk st; screen := shown; keyboard := []; running := running st |},
         Throw EOFError)
    | Line s :: keys =>
        ({| disk := disk st; screen := shown; keyboard := keys; running := running st |},
         Done s)
    | CtrlC :: keys =>
        ({| disk := disk st; screen := shown; keyboard := keys; running := running st |},
         Throw (Exc KeyboardInterrupt))
    | Undecodable msg :: keys =>
        ({| disk := disk st; screen := shown; keyboard := keys; running := running st |},
         Throw (Exc (ValueError msg)))
    end.

(** [sys.exit(code)]. *)
Definition sys_exit {os A} (code : Z) : cli os A := cli_raise (SystemExit code).

Definition get_running {os} : cli os bool := fun st => (st, Done (running st)).

Definition set_running {os} (b : bool) : cli os unit :=
  fun st =>
    ({| disk := disk st; screen := screen st; keyboard := keyboard st; running := b |},
     Done tt).

Definition cli_result {os A} (r : result A) : cli os A :=
  fun st =>
    (st, match r with
         | Ok a => Done a
         | Raise e => Throw (Exc e)
         end).

(** A call of a file helper from the shell: it works on the disk, and the
    lines it prints go to the screen. *)
Definition cli_io {os A} (m : io os A) : cli os A :=
  fun st =>
    let (w, r) := m {| fs := disk st; stdout := [] |} in
    ({| disk := fs w; screen := screen st ++ map Print (stdout w);
        keyboard := keyboard st; running := running st |},
     match r with
     | Ok a => Done a
     | Raise e => Throw (Exc e)
     end).

(** [try: body  except ...: handler] in the shell. *)
Definition try_catch {os A} (body : cli os A) (handler : signal -> option (cli os A))
    : cli os A :=
  fun st =>
    match body st with
    | (st', Throw s) =>
        match handler s with
        | Some h => h st'
        | None => (st', Throw s)
        end
    | other => other
    end.

(** [try: body  except Exception as e: handler(e)]. *)
Definition except_Exception {os A} (body : cli os A) (handler : signal -> cli os A)
    : cli os A :=
  try_catch body (fun s => if signal_is_Exception s then Some (handler s) else None).

(** [for x in l: body(x)]. *)
Fixpoint cli_for {os A} (l : list A) (body : A -> cli os unit) : cli os unit :=
  match l with
  | [] => cli_ret tt
  | x :: l' => _ <~~ body x ;; cli_for l' body
  end.

(** [x in l] for strings. *)
Definition str_in (x : str) (l : list str) : bool := existsb (str_eqb x) l.

(** [not s] for a string. *)
Definition is_empty (s : str) : bool :=
  match s with
  | [] => true
  | _ => false
  end.

(** ** class CaesarCipherCLI *)
Module CaesarCipherCLI.

Section Methods.
Variable db : unicode_db.
Variable py : builtins.
Variable os : os_model.

(** [self.cipher], made by [__init__]. *)
Definition cipher : CaesarCipher.t := CaesarCipher.__init__.

Definition print_header : cli os unit :=
  print_lines
    [ nl ++ str_mul (u "=") 60;
      u "🔐 CAESAR CIPHER TOOL - INTERNSHIP PROJECT 🔐";
      str_mul (u "=") 60;
      u "Developed as part of software development internship";
      u "Demonstrating algorithm implementation and UI design";
      str_mul (u "=") 60 ].

Definition print_menu : cli os unit :=
  print_lines
    [ nl ++ u "📋 MAIN MENU:";
      u "1. 🔒 Encrypt a message";
      u "2. 🔓 Decrypt a message";
      u "3. 🔍 Brute force decrypt (try all shifts)";
      u "4. 📁 Encrypt a file";
      u "5. 📂 Decrypt a file";
      u "6. 📚 View examples";
      u "7. ❓ Help & Information";
      u "8. 🚪 Exit" ].

(** One turn of the [while True] loop of [get_valid_shift]: [Some shift] when
    it returns, [None] when it goes round again.  The text of the
    [ValueError] of [int] is cut short: the handler does not use it. *)
Definition get_valid_shift_turn (prompt : str) : cli os (option Z) :=
  try_catch
    (s <~~ input prompt ;;
     shift <~~ match int_parse py s with
               | Some n => cli_ret n
               | None =>
                   cli_raise (Exc (ValueError (lit "invalid literal for int() with base 10")))
               end ;;
     if (CaesarCipher.min_shift cipher <=? shift) && (shift <=? CaesarCipher.max_shift cipher)
     then cli_ret (Some shift)
     else
       _ <~~ cli_print (u "❌ Please enter a number between "
                          ++ str_of_int (CaesarCipher.min_shift cipher)
                          ++ u " and " ++ str_of_int (CaesarCipher.max_shift cipher)
                          ++ u ".") ;;
       cli_ret None)
    (fun s =>
       match s with
       | Exc (ValueError _) =>
           Some (_ <~~ cli_print (u "❌ Please enter a valid number.") ;; cli_ret None)
       | Exc KeyboardInterrupt =>
           Some (_ <~~ cli_print (nl ++ nl ++ u "👋 Goodbye!") ;; sys_exit 0)
       | _ => None
       end).

Fixpoint get_valid_shift_loop (fuel : nat) (prompt : str) : cli os Z :=
  match fuel with
  | O => out_of_fuel
  | S fuel' =>
      r <~~ get_valid_shift_turn prompt ;;
      match r with
      | Some shift => cli_ret shift
      | None => get_valid_shift_loop fuel' prompt
      end
  end.

(** Every turn reads a line, or ends the loop: one turn more than there are
    keys is enough. *)
Definition get_valid_shift (prompt : str) : cli os Z :=
  fun st => get_valid_shift_loop (S (List.length (keyboard st))) prompt st.

(** The default value of [prompt]. *)
Definition shift_prompt : str := u "Enter shift value (1-25): ".

Definition get_user_input (prompt : str) : cli os str :=
  try_catch
    (s <~~ input prompt ;; cli_ret (str_strip py s))
    (fun s =>
       match s with
       | Exc KeyboardInterrupt =>
           Some (_ <~~ cli_print (nl ++ nl ++ u "👋 Goodbye!") ;; sys_exit 0)
       | _ => None
       end).

Definition encrypt_message : cli os unit :=
  _ <~~ cli_print (nl ++ str_mul (u "=") 40) ;;
  _ <~~ cli_print (u "🔒 ENCRYPT MESSAGE") ;;
  _ <~~ cli_print (str_mul (u "=") 40) ;;
  message <~~ get_user_input (u "Enter message to encrypt: ") ;;
  if is_empty message then cli_print (u "❌ Message cannot be empty.")
  else
    shift <~~ get_valid_shift shift_prompt ;;
    except_Exception
      (encrypted <~~ cli_result (CaesarCipher.encrypt db cipher message shift) ;;
       _ <~~ cli_print (nl ++ u "✅ Encryption successful!") ;;
       _ <~~ cli_print (u "📝 Original:  '" ++ message ++ u "'") ;;
       _ <~~ cli_print (u "🔒 Encrypted: '" ++ encrypted ++ u "'") ;;
       _ <~~ cli_print (u "🔑 Shift used: " ++ str_of_int shift) ;;
       cli_print (u "💡 Tip: Use shift value " ++ str_of_int shift
                    ++ u " to decrypt this message"))
      (fun e => cli_print (u "❌ Encryption failed: " ++ signal_str e)).

Definition decrypt_message : cli os unit :=
  _ <~~ cli_print (nl ++ str_mul (u "=") 40) ;;
  _ <~~ cli_print (u "🔓 DECRYPT MESSAGE") ;;
  _ <~~ cli_print (str_mul (u "=") 40) ;;
  message <~~ get_user_input (u "Enter message to decrypt: ") ;;
  if is_empty message then cli_print (u "❌ Message cannot be empty.")
  else
    shift <~~ get_valid_shift shift_prompt ;;
    except_Exception
      (decrypted <~~ cli_result (CaesarCipher.decrypt db cipher message shift) ;;
       _ <~~ cli_print (nl ++ u "✅ Decryption successful!") ;;
       _ <~~ cli_print (u "🔒 Encrypted: '" ++ message ++ u "'") ;;
       _ <~~ cli_print (u "📝 Decrypted: '" ++ decrypted ++ u "'") ;;
       cli_print (u "🔑 Shift used: " ++ str_of_int shift))
      (fun e => cli_print (u "❌ Decryption failed: " ++ signal_str e)).

Definition brute_force_decrypt : cli os unit :=
  _ <~~ cli_print (nl ++ str_mul (u "=") 40) ;;
  _ <~~ cli_print (u "🔍 BRUTE FORCE DECRYPT") ;;
  _ <~~ cli_print (str_mul (u "=") 40) ;;
  _ <~~ cli_print (u "This will try all possible shift values (1-25)") ;;
  message <~~ get_user_input (u "Enter encrypted message: ") ;;
  if is_empty message then cli_print (u "❌ Message cannot be empty.")
  else
    _ <~~ cli_print (nl ++ u "🔍 Trying all shifts for: '" ++ message ++ u "'") ;;
    _ <~~ cli_print (str_mul (u "-") 60) ;;
    results <~~ cli_result (CaesarCipher.brute_force_decrypt db cipher message) ;;
    _ <~~ cli_for results
            (fun '(shift, decrypted) =>
               cli_print (u "Shift " ++ format_2d shift ++ u ": " ++ decrypted)) ;;
    cli_print (nl ++ u "💡 Look for the result that makes the most sense!").

Definition encrypt_file_menu : cli os unit :=
  _ <~~ cli_print (nl ++ str_mul (u "=") 40) ;;
  _ <~~ cli_print (u "📁 ENCRYPT FILE") ;;
  _ <~~ cli_print (str_mul (u "=") 40) ;;
  input_file <~~ get_user_input (u "Enter input file path: ") ;;
  if is_empty input_file then cli_print (u "❌ File path cannot be empty.")
  else
    shift <~~ get_valid_shift shift_prompt ;;
    output_file <~~ get_user_input
                      (u "Enter output file path (or press Enter for auto-naming): ") ;;
    let output_file := if is_empty output_file then None else Some output_file in
    _ <~~ cli_print (nl ++ u "🔄 Encrypting file...") ;;
    success <~~ cli_io (CaesarCipher.encrypt_file db cipher os input_file shift output_file) ;;
    if success : bool then
      let final_output :=
        match output_file with
        | Some o => o
        | None =>
            fst (splitext (os_path_module os) input_file) ++ u "_encrypted"
            ++ snd (splitext (os_path_module os) input_file)
        end in
      _ <~~ cli_print (u "✅ File encrypted successfully!") ;;
      _ <~~ cli_print (u "📁 Output saved to: " ++ final_output) ;;
      cli_print (u "🔑 Shift used: " ++ str_of_int shift)
    else cli_ret tt.

Definition decrypt_file_menu : cli os unit :=
  _ <~~ cli_print (nl ++ str_mul (u "=") 40) ;;
  _ <~~ cli_print (u "📂 DECRYPT FILE") ;;
  _ <~~ cli_print (str_mul (u "=") 40) ;;
  input_file <~~ get_user_input (u "Enter input file path: ") ;;
  if is_empty input_file then cli_print (u "❌ File path cannot be empty.")
  else
    shift <~~ get_valid_shift shift_prompt ;;
    output_file <~~ get_user_input
                      (u "Enter output file path (or press Enter for auto-naming): ") ;;
    let output_file := if is_empty output_file then None else Some output_file in
    _ <~~ cli_print (nl ++ u "🔄 Decrypting file...") ;;
    success <~~ cli_io (CaesarCipher.decrypt_file db cipher os input_file shift output_file) ;;
    if success : bool then
      let final_output :=
        match output_file with
        | Some o => o
        | None =>
            fst (splitext (os_path_module os) input_file) ++ u "_decrypted"
            ++ snd (splitext (os_path_module os) input_file)
        end in
      _ <~~ cli_print (u "✅ File decrypted successfully!") ;;
      _ <~~ cli_print (u "📁 Output saved to: " ++ final_output) ;;
      cli_print (u "🔑 Shift used: " ++ str_of_int shift)
    else cli_ret tt.

(** The list [examples] of [show_examples]. *)
Definition examples : list (str * Z) :=
  [ (u "Hello World!", 3);
    (u "Python Programming", 13);
    (u "Attack at dawn!", 5);
    (u "INTERNSHIP PROJECT", 7);
    (u "Cryptography is fun!", 12) ].

Definition show_examples : cli os unit :=
  _ <~~ cli_print (nl ++ str_mul (u "=") 50) ;;
  _ <~~ cli_print (u "📚 CAESAR CIPHER EXAMPLES") ;;
  _ <~~ cli_print (str_mul (u "=") 50) ;;
  _ <~~ cli_for (enumerate examples 1)
          (fun '(i, (message, shift)) =>
             encrypted <~~ cli_result (CaesarCipher.encrypt db cipher message shift) ;;
             decrypted <~~ cli_result (CaesarCipher.decrypt db cipher encrypted shift) ;;
             _ <~~ cli_print (nl ++ u "Example " ++ str_of_int i ++ u ":") ;;
             _ <~~ cli_print (u "  Original:  '" ++ message ++ u "'") ;;
             _ <~~ cli_print (u "  Shift:     " ++ str_of_int shift) ;;
             _ <~~ cli_print (u "  Encrypted: '" ++ encrypted ++ u "'") ;;
             cli_print (u "  Decrypted: '" ++ decrypted ++ u "'")) ;;
  _ <~~ cli_print (nl ++ u "💡 Notice how:") ;;
  _ <~~ cli_print (u "   • Case is preserved (A→D, a→d)") ;;
  _ <~~ cli_print (u "   • Punctuation stays the same") ;;
  _ <~~ cli_print (u "   • Numbers and spaces are unchanged") ;;
  cli_print (u "   • Alphabet wraps around (Z→C with shift 3)").

Definition show_help : cli os unit :=
  print_lines
    [ nl ++ str_mul (u "=") 50;
      u "❓ HELP & INFORMATION";
      str_mul (u "=") 50;
      nl ++ u "🔐 What is Caesar Cipher?";
      u "The Caesar cipher is one of the simplest encryption techniques.";
      u "It shifts each letter in the alphabet by a fixed number of positions.";
      nl ++ u "📝 How it works:";
      u "• Choose a shift value (1-25)";
      u "• Each letter moves that many positions in the alphabet";
      u "• A with shift 3 becomes D, B becomes E, etc.";
      u "• When you reach Z, it wraps around to A";
      nl ++ u "🔑 Example with shift 3:";
      u "  A B C D E F G H I J K L M N O P Q R S T U V W X Y Z";
      u "  ↓ ↓ ↓ ↓ ↓ ↓ ↓ ↓ ↓ ↓ ↓ ↓ ↓ ↓ ↓ ↓ ↓ ↓ ↓ ↓ ↓ ↓ ↓ ↓ ↓ ↓";
      u "  D E F G H I J K L M N O P Q R S T U V W X Y Z A B C";
      nl ++ u "🛡️ Security Note:";
      u "Caesar cipher is not secure for real-world use!";
      u "It's easily broken with frequency analysis or brute force.";
      u "This tool is for educational purposes and learning cryptography basics.";
      nl ++ u "🎯 Internship Project Goals:";
      u "• Demonstrate algorithm implementation skills";
      u "• Show clean code practices and documentation";
      u "• Practice user interface design";
      u "• Learn file handling and error management";
      nl ++ u "📋 Features implemented:";
      u "• Interactive command-line interface";
      u "• Input validation and error handling";
      u "• File encryption/decryption capabilities";
      u "• Brute force cryptanalysis";
      u "• Comprehensive documentation";
      u "• Object-oriented design patterns" ].

(** The [if]/[elif] chain of [run]. *)
Definition dispatch (choice : str) : cli os unit :=
  if str_eqb choice (u "1") then encrypt_message
  else if str_eqb choice (u "2") then decrypt_message
  else if str_eqb choice (u "3") then brute_force_decrypt
  else if str_eqb choice (u "4") then encrypt_file_menu
  else if str_eqb choice (u "5") then decrypt_file_menu
  else if str_eqb choice (u "6") then show_examples
  else if str_eqb choice (u "7") then show_help
  else if str_eqb choice (u "8") then
    _ <~~ cli_print (nl ++ str_mul (u "=") 40) ;;
    _ <~~ cli_print (u "👋 Thank you for using Caesar Cipher Tool!") ;;
    _ <~~ cli_print (u "💼 Internship project completed successfully") ;;
    _ <~~ cli_print (u "🎓 Great job learning cryptography basics!") ;;
    _ <~~ cli_print (str_mul (u "=") 40) ;;
    set_running false
  else cli_print (u "❌ Invalid choice. Please enter a number between 1 and 8.").

(** The body of the [while self.running] loop of [run]. *)
Definition run_turn : cli os unit :=
  _ <~~ print_menu ;;
  choice <~~ get_user_input (nl ++ u "Enter your choice (1-8): ") ;;
  _ <~~ dispatch choice ;;
  still_running <~~ get_running ;;
  if still_running
     && str_in choice [u "1"; u "2"; u "3"; u "4"; u "5"; u "6"; u "7"]
  then
    continue_choice <~~ get_user_input (nl ++ u "Press Enter to continue or 'q' to quit: ") ;;
    if str_eqb (str_lower py continue_choice) (u "q") then
      _ <~~ cli_print (nl ++ u "👋 Goodbye!") ;;
      set_running false
    else cli_ret tt
  else cli_ret tt.

Fixpoint run_loop (fuel : nat) : cli os unit :=
  match fuel with
  | O => out_of_fuel
  | S fuel' =>
      go_on <~~ get_running ;;
      if go_on : bool then _ <~~ run_turn ;; run_loop fuel'
      else cli_ret tt
  end.

(** Every turn reads a line, or ends the loop: one turn more than there are
    keys is enough. *)
Definition run : cli os unit :=
  _ <~~ print_header ;;
  fun st => run_loop (S (List.length (keyboard st))) st.

End Methods.

End CaesarCipherCLI.

(** [main()]: [CaesarCipherCLI()] sets [running], then [run] is called. *)
Definition main (db : unicode_db) (py : builtins) (os : os_model) : cli os unit :=
  try_catch
    (_ <~~ set_running true ;; CaesarCipherCLI.run db py os)
    (fun s =>
       match s with
       | Exc KeyboardInterrupt =>
           Some (_ <~~ cli_print (nl ++ nl ++ u "👋 Goodbye!") ;; sys_exit 0)
       | _ =>
           if signal_is_Exception s then
             Some (_ <~~ cli_print (nl ++ u "❌ An unexpected error occurred: "
                                      ++ signal_str s) ;;
                   sys_exit 1)
           else None
       end).


(** ** Notions used in the statements about the shell *)

(** The line printed when Ctrl-C is pressed at a prompt. *)
Definition goodbye : str := nl ++ nl ++ u "👋 Goodbye!".

(** The session after [events] were shown and the keys that are left are
    [keys]. *)
Definition shown {os} (st : session os) (events : list out_event)
    (keys : list key_event) : session os :=
  {| disk := disk st; screen := screen st ++ events;
     keyboard := keys; running := running st |}.

Definition ends_with (scr : list out_event) (e : out_event) : Prop :=
  exists before, scr = before ++ [e].



(** [m] leaves the file system as it found it, however it ends. *)
Definition keeps_disk {os A} (m : cli os A) : Prop :=
  forall st, disk (fst (m st)) = disk st.

(** What [get_valid_shift] prints for a line it does not accept. *)
Definition rejection (py : builtins) (line : str) : str :=
  match int_parse py line with
  | None => u "❌ Please enter a valid number."
  | Some _ => u "❌ Please enter a number between 1 and 25."
  end.

(** [get_valid_shift] does not accept the line: it is no integer, or one
    outside 1..25. *)
Definition rejected (py : builtins) (line : str) : Prop :=
  match int_parse py line with
  | None => True
  | Some n => ~ (1 <= n <= 25)
  end.

(** ** The transform, one character at a time *)

Lemma chr_ok n : 0 <= n <= 1114111 -> chr n = Ok n.
Proof.
  intros H. unfold chr.
  replace ((0 <=? n) && (n <=? 1114111)) with true by lia. reflexivity.
Qed.

Lemma rotate_alpha_bounds db k c :
  isalpha db c = true ->
  let base := if isupper db c then 65 else 97 in
  base <= rotate db k c <= base + 25.
Proof.
  intros Ha. unfold rotate. rewrite Ha. cbv zeta.
  pose proof (Z.mod_pos_bound (c - (if isupper db c then 65 else 97) + k) 26).
  lia.
Qed.

Lemma cipher_loop db k text : forall acc,
  for_each text
    (fun result char =>
       if isalpha db char then
         let base := if isupper db char then ord (char_of "A") else ord (char_of "a") in
         let shifted := (ord char - base + k) mod alphabet_size __init__ + base in
         c <- chr shifted ;; Ok (result ++ [c])
       else Ok (result ++ [char]))
    acc
  = Ok (acc ++ map (rotate db k) text).
Proof.
  induction text as [|c text IH]; intros acc; cbn [for_each map].
  - now rewrite app_nil_r.
  - pose proof (rotate_alpha_bounds db k c) as Hb.
    unfold rotate in *. cbn [alphabet_size __init__] in *.
    change (ord (char_of "A")) with 65. change (ord (char_of "a")) with 97.
    unfold ord.
    destruct (isalpha db c); cbn [bind].
    + specialize (Hb eq_refl). cbv zeta in *.
      rewrite chr_ok by (destruct (isupper db c); lia).
      cbn [bind]. rewrite IH, <- app_assoc. reflexivity.
    + rewrite IH, <- app_assoc. reflexivity.
Qed.

Lemma cipher_valid db text shift decrypt :
  1 <= shift <= 25 ->
  cipher db __init__ text shift decrypt = Ok (map (rotate db (signed shift decrypt)) text).
Proof.
  intros H. unfold cipher. cbn [min_shift max_shift __init__].
  replace ((1 <=? shift) && (shift <=? 25)) with true by lia.
  cbn [negb]. unfold signed.
  destruct decrypt; apply (cipher_loop db _ text []).
Qed.

Lemma cipher_invalid db text shift decrypt :
  ~ (1 <= shift <= 25) ->
  cipher db __init__ text shift decrypt
  = Raise (ValueError (lit "Shift must be between 1 and 25")).
Proof.
  intros H. unfold cipher. cbn [min_shift max_shift __init__].
  replace ((1 <=? shift) && (shift <=? 25)) with false by lia.
  reflexivity.
Qed.

Lemma rotate_ascii_agree db k c :
  0 <= c < 128 -> rotate db k c = rotate latin1_db k c.
Proof.
  intros H. unfold rotate.
  rewrite (isalpha_ascii db c H), (isupper_ascii db c H).
  rewrite (isalpha_ascii latin1_db c H), (isupper_ascii latin1_db c H).
  reflexivity.
Qed.

Lemma map_rotate_ascii_agree db k text :
  forallb is_ascii text = true ->
  map (rotate db k) text = map (rotate latin1_db k) text.
Proof.
  induction text as [|c text IH]; cbn [forallb map]; intros H; [reflexivity|].
  apply andb_prop in H as [Hc Ht].
  rewrite IH by exact Ht. f_equal.
  apply rotate_ascii_agree. unfold is_ascii, in_range in Hc. lia.
Qed.

(** ** Properties of [cipher] *)

(** C9: for a shift in 1..25 and either direction, [cipher] returns a text
    with exactly as many characters as its input. *)
Theorem cipher_preserves_length db text shift decrypt :
  1 <= shift <= 25 ->
  exists out,
    cipher db __init__ text shift decrypt = Ok out
    /\ List.length out = List.length text.
Proof.
  intros H. eexists. split.
  - apply cipher_valid, H.
  - apply length_map.
Qed.

Lemma cipher_preserves_length_witness :
  exists out,
    cipher latin1_db __init__ (lit "Zebra 42") 3 true = Ok out
    /\ List.length out = List.length (lit "Zebra 42").
Proof. apply (cipher_preserves_length latin1_db (lit "Zebra 42") 3 true). lia. Defined.

(** The pass-through rule as the code has it: for a shift in 1..25 and
    either direction, a character for which [isalpha] answers [False] is
    found unchanged at the same position of the output. *)
Theorem cipher_keeps_non_alphabetic db text shift decrypt i c :
  1 <= shift <= 25 ->
  nth_error text i = Some c ->
  isalpha db c = false ->
  exists out,
    cipher db __init__ text shift decrypt = Ok out
    /\ nth_error out i = Some c.
Proof.
  intros H Hi Ha. eexists. split.
  - apply cipher_valid, H.
  - rewrite nth_error_map, Hi. cbn. unfold rotate. now rewrite Ha.
Qed.

Lemma cipher_keeps_non_alphabetic_witness :
  exists out,
    cipher latin1_db __init__ (lit "a1!") 7 false = Ok out
    /\ nth_error out 1%nat = Some (char_of "1").
Proof.
  apply (cipher_keeps_non_alphabetic latin1_db (lit "a1!") 7 false 1 (char_of "1"));
    [lia | reflexivity | reflexivity].
Defined.

(** C3: [cipher] raises the [ValueError] about the shift exactly when the
    shift is outside 1..25, whatever the text and the direction, and then
    returns no text; it returns a text exactly when the shift is in 1..25.
    Shifts 0 and 26 are rejected. *)
Theorem cipher_raises_iff_shift_out_of_range db text shift decrypt :
  (cipher db __init__ text shift decrypt
     = Raise (ValueError (lit "Shift must be between 1 and 25"))
   <-> ~ (1 <= shift <= 25))
  /\ ((exists e, cipher db __init__ text shift decrypt = Raise e)
      <-> ~ (1 <= shift <= 25))
  /\ ((exists out, cipher db __init__ text shift decrypt = Ok out)
      <-> 1 <= shift <= 25)
  /\ cipher db __init__ text 0 decrypt
     = Raise (ValueError (lit "Shift must be between 1 and 25"))
  /\ cipher db __init__ text 26 decrypt
     = Raise (ValueError (lit "Shift must be between 1 and 25")).
Proof.
  assert (Hdec : 1 <= shift <= 25 \/ ~ (1 <= shift <= 25)) by lia.
  split; [|split; [|split; [|split]]].
  - split.
    + intros Hr Hv. rewrite (cipher_valid db text shift decrypt Hv) in Hr. discriminate.
    + apply cipher_invalid.
  - split.
    + intros [e Hr] Hv. rewrite (cipher_valid db text shift decrypt Hv) in Hr. discriminate.
    + intros Hn. eexists. apply cipher_invalid, Hn.
  - split.
    + intros [out Hr]. destruct Hdec as [Hv|Hn]; [exact Hv|].
      rewrite (cipher_invalid db text shift decrypt Hn) in Hr. discriminate.
    + intros Hv. eexists. apply cipher_valid, Hv.
  - apply cipher_invalid. lia.
  - apply cipher_invalid. lia.
Qed.

(** C5: the two test vectors: encrypting "Hello World!" with shift 3 gives
    "Khoor Zruog!", and "Attack at dawn!" with shift 5 gives
    "Fyyfhp fy ifbs!". *)
Theorem encrypt_test_vectors db :
  encrypt db __init__ (lit "Hello World!") 3 = Ok (lit "Khoor Zruog!")
  /\ encrypt db __init__ (lit "Attack at dawn!") 5 = Ok (lit "Fyyfhp fy ifbs!").
Proof.
  unfold encrypt. split.
  - rewrite cipher_valid by lia.
    rewrite map_rotate_ascii_agree by reflexivity. reflexivity.
  - rewrite cipher_valid by lia.
    rewrite map_rotate_ascii_agree by reflexivity. reflexivity.
Qed.

(** C10: for a shift in 1..25 and either direction, an alphabetic character
    of the input, ASCII or not, is mapped to an ASCII letter at the same
    position: one of A..Z when the character is upper case, one of a..z
    otherwise.  An alphabetic character outside ASCII is therefore changed
    and not passed through. *)
Theorem cipher_maps_letters_into_ascii db text shift decrypt i c :
  1 <= shift <= 25 ->
  nth_error text i = Some c ->
  isalpha db c = true ->
  exists out o,
    cipher db __init__ text shift decrypt = Ok out
    /\ nth_error out i = Some o
    /\ (if isupper db c then 65 <= o <= 90 else 97 <= o <= 122)
    /\ (~ (0 <= c < 128) -> o <> c).
Proof.
  intros H Hi Ha.
  exists (map (rotate db (signed shift decrypt)) text),
         (rotate db (signed shift decrypt) c).
  pose proof (rotate_alpha_bounds db (signed shift decrypt) c Ha) as Hb.
  cbv zeta in Hb.
  split; [apply cipher_valid, H|].
  split; [rewrite nth_error_map, Hi; reflexivity|].
  split; destruct (isupper db c); lia.
Qed.

Lemma cipher_maps_letters_into_ascii_witness :
  exists out o,
    cipher latin1_db __init__ [233] 1 false = Ok out
    /\ nth_error out 0%nat = Some o
    /\ (if isupper latin1_db 233 then 65 <= o <= 90 else 97 <= o <= 122)
    /\ (~ (0 <= 233 < 128) -> o <> 233).
Proof.
  apply (cipher_maps_letters_into_ascii latin1_db [233] 1 false 0 233);
    [lia | reflexivity | reflexivity].
Defined.

(** C6: for a shift in 1..25 and either direction, an upper-case letter of
    the input gives an upper-case letter at the same position of the output,
    and a lower-case letter gives a lower-case letter. *)
Theorem cipher_preserves_case db text shift decrypt i c :
  1 <= shift <= 25 ->
  nth_error text i = Some c ->
  isalpha db c = true ->
  exists out o,
    cipher db __init__ text shift decrypt = Ok out
    /\ nth_error out i = Some o
    /\ (isupper db c = true -> isalpha db o = true /\ isupper db o = true)
    /\ (islower db c = true -> isalpha db o = true /\ islower db o = true).
Proof.
  intros H Hi Ha.
  exists (map (rotate db (signed shift decrypt)) text),
         (rotate db (signed shift decrypt) c).
  pose proof (rotate_alpha_bounds db (signed shift decrypt) c Ha) as Hb.
  cbv zeta in Hb.
  split; [apply cipher_valid, H|].
  split; [rewrite nth_error_map, Hi; reflexivity|].
  set (o := rotate db (signed shift decrypt) c) in *.
  split.
  - intros Hu. rewrite Hu in Hb.
    rewrite (isalpha_ascii db o), (isupper_ascii db o) by lia.
    split; ranges.
  - intros Hl.
    assert (Hu : isupper db c = false).
    { destruct (isupper db c) eqn:E; [|reflexivity].
      rewrite (upper_not_lower db c E) in Hl. discriminate. }
    rewrite Hu in Hb.
    rewrite (isalpha_ascii db o), (islower_ascii db o) by lia.
    split; ranges.
Qed.

Lemma cipher_preserves_case_witness :
  exists out o,
    cipher latin1_db __init__ (lit "Yz") 4 false = Ok out
    /\ nth_error out 0%nat = Some o
    /\ (isupper latin1_db (char_of "Y") = true
        -> isalpha latin1_db o = true /\ isupper latin1_db o = true)
    /\ (islower latin1_db (char_of "Y") = true
        -> isalpha latin1_db o = true /\ islower latin1_db o = true).
Proof.
  apply (cipher_preserves_case latin1_db (lit "Yz") 4 false 0 (char_of "Y"));
    [lia | reflexivity | reflexivity].
Defined.

(** ** Decrypting what was encrypted *)

Lemma roundtrip_valid db text shift :
  1 <= shift <= 25 ->
  roundtrip db text shift
  = Ok (map (fun c => rotate db (- shift) (rotate db shift c)) text).
Proof.
  intros H. unfold roundtrip, encrypt, decrypt.
  rewrite cipher_valid by exact H. cbn [bind].
  rewrite cipher_valid by exact H. cbn [signed].
  now rewrite map_map.
Qed.

Lemma ascii_letter_bounds db c :
  isalpha db c = true -> 0 <= c < 128 ->
  let base := if ascii_isupper c then 65 else 97 in
  base <= c <= base + 25.
Proof.
  intros Ha Hc. rewrite (isalpha_ascii db c Hc) in Ha. cbv zeta.
  destruct (ascii_isupper c) eqn:E; ranges.
Qed.

Lemma rotate_back_ascii_letter db shift c :
  isalpha db c = true -> 0 <= c < 128 ->
  rotate db (- shift) (rotate db shift c) = c.
Proof.
  intros Ha Hc.
  pose proof (rotate_alpha_bounds db shift c Ha) as Hb. cbv zeta in Hb.
  pose proof (ascii_letter_bounds db c Ha Hc) as Hr. cbv zeta in Hr.
  rewrite (isupper_ascii db c Hc) in Hb.
  set (o := rotate db shift c) in *.
  assert (Ho : 0 <= o < 128) by (destruct (ascii_isupper c); lia).
  assert (Hoa : isalpha db o = true).
  { rewrite (isalpha_ascii db o Ho). destruct (ascii_isupper c); ranges. }
  assert (Hou : isupper db o = ascii_isupper c).
  { rewrite (isupper_ascii db o Ho). destruct (ascii_isupper c) eqn:E; ranges. }
  unfold rotate at 1. rewrite Hoa, Hou. cbv zeta.
  subst o. unfold rotate. rewrite Ha, (isupper_ascii db c Hc).
  set (base := if ascii_isupper c then 65 else 97) in *.
  replace ((c - base + shift) mod 26 + base - base + - shift)
    with ((c - base + shift) mod 26 - shift) by lia.
  rewrite Zminus_mod_idemp_l.
  replace (c - base + shift - shift) with (c - base) by lia.
  rewrite Z.mod_small by lia. lia.
Qed.

(** On a text whose letters are all ASCII, decryption undoes encryption. *)
Lemma roundtrip_when_letters_are_ascii db text shift :
  1 <= shift <= 25 ->
  Forall (fun c => isalpha db c = true -> 0 <= c < 128) text ->
  roundtrip db text shift = Ok text.
Proof.
  intros H Hall. rewrite roundtrip_valid by exact H. f_equal.
  induction Hall as [|c text Hc _ IH]; cbn [map]; [reflexivity|].
  rewrite IH. f_equal.
  destruct (isalpha db c) eqn:Ha.
  - apply rotate_back_ascii_letter; auto.
  - unfold rotate. now rewrite Ha, Ha.
Qed.

(** An alphabetic character outside ASCII does not come back: both
    rotations land in the ASCII letters. *)
Lemma rotate_back_non_ascii_letter db shift c :
  isalpha db c = true -> ~ (0 <= c < 128) ->
  rotate db (- shift) (rotate db shift c) <> c.
Proof.
  intros Ha Hc Hn.
  pose proof (rotate_alpha_bounds db shift c Ha) as Hb. cbv zeta in Hb.
  set (o := rotate db shift c) in *.
  assert (Ho : 0 <= o < 128) by (destruct (isupper db c); lia).
  assert (Hoa : isalpha db o = true).
  { rewrite (isalpha_ascii db o Ho). destruct (isupper db c); ranges. }
  pose proof (rotate_alpha_bounds db (- shift) o Hoa) as Hb'. cbv zeta in Hb'.
  rewrite Hn in Hb'. destruct (isupper db o); lia.
Qed.

Lemma map_moves_position {A} (f : A -> A) (l : list A) i x :
  nth_error l i = Some x -> f x <> x -> map f l <> l.
Proof.
  intros Hi Hx Heq. apply Hx.
  assert (Hn : nth_error (map f l) i = Some x) by (rewrite Heq; exact Hi).
  rewrite nth_error_map, Hi in Hn. cbn in Hn. now injection Hn.
Qed.

(** C1 (refuted on the code): decryption does not undo encryption on a text
    that holds an alphabetic character outside ASCII.  Such a character is
    encrypted to an ASCII letter, and decryption returns an ASCII letter at
    its position, so the text that comes back differs from the original. *)
Theorem roundtrip_loses_non_ascii_letters db text shift i c :
  1 <= shift <= 25 ->
  nth_error text i = Some c ->
  isalpha db c = true ->
  ~ (0 <= c < 128) ->
  exists out,
    roundtrip db text shift = Ok out /\ out <> text.
Proof.
  intros H Hi Ha Hc. eexists. split; [apply roundtrip_valid, H|].
  apply (map_moves_position _ text i c Hi).
  apply rotate_back_non_ascii_letter; assumption.
Qed.

Lemma roundtrip_loses_non_ascii_letters_witness :
  exists out,
    roundtrip latin1_db [233] 1 = Ok out /\ out <> [233].
Proof.
  apply (roundtrip_loses_non_ascii_letters latin1_db [233] 1 0 233);
    [lia | reflexivity | reflexivity | lia].
Defined.

(** The text U+00E9 (e with acute accent), encrypted and then decrypted with
    shift 1, comes back as "g". *)
Example roundtrip_e_acute : roundtrip latin1_db [233] 1 = Ok (lit "g").
Proof. reflexivity. Qed.

(** ** Brute force *)

Lemma dict_set_fresh {V} (d : dict V) k v :
  ~ In k (dict_keys d) -> dict_set d k v = d ++ [(k, v)].
Proof.
  induction d as [|[k' v'] d IH]; cbn [dict_set dict_keys map fst In app]; intros H.
  - reflexivity.
  - destruct (Z.eqb_spec k' k) as [->|_]; [tauto|].
    rewrite IH by tauto. reflexivity.
Qed.

Lemma dict_get_map {V} (f : Z -> V) (l : list Z) k :
  In k l -> dict_get (map (fun s => (s, f s)) l) k = Some (f k).
Proof.
  induction l as [|x l IH]; cbn [In map dict_get]; intros H; [tauto|].
  destruct (Z.eqb_spec x k) as [->|Hne]; [reflexivity|].
  apply IH. destruct H; congruence.
Qed.

Lemma brute_force_loop db text (l : list Z) : forall acc : dict str,
  NoDup l ->
  (forall s, In s l -> 1 <= s <= 25 /\ ~ In s (dict_keys acc)) ->
  for_each l
    (fun results shift =>
       decrypted <- decrypt db __init__ text shift ;;
       Ok (dict_set results shift decrypted))
    acc
  = Ok (acc ++ map (fun s => (s, map (rotate db (- s)) text)) l).
Proof.
  induction l as [|x l IH]; intros acc Hnd Hl; cbn [for_each map].
  - now rewrite app_nil_r.
  - destruct (Hl x (or_introl eq_refl)) as [Hx Hfresh].
    unfold decrypt at 1. rewrite cipher_valid by exact Hx. cbn [bind signed].
    rewrite dict_set_fresh by exact Hfresh.
    inversion Hnd as [|? ? Hnx Hnd']; subst.
    rewrite IH.
    + now rewrite <- app_assoc.
    + exact Hnd'.
    + intros s Hs. destruct (Hl s (or_intror Hs)) as [Hs1 Hs2]. split; [exact Hs1|].
      unfold dict_keys in *. rewrite map_app, in_app_iff. cbn [map fst In].
      intros [Hin|[Heq|[]]]; [tauto|]. subst. tauto.
Qed.

(** The 25 candidates: keys 1 to 25 in ascending order, each with the text
    decrypted by its key. *)
Lemma brute_force_decrypt_entries db text :
  brute_force_decrypt db __init__ text
  = Ok (map (fun s => (s, map (rotate db (- s)) text)) (range 1 26)).
Proof.
  unfold brute_force_decrypt. cbn [min_shift max_shift __init__].
  change (25 + 1) with 26.
  apply (brute_force_loop db text (range 1 26) []).
  - vm_compute. repeat (constructor; [cbn [In]; lia|]). constructor.
  - intros s Hs. split; [|intros []].
    vm_compute in Hs. cbn [In] in Hs. lia.
Qed.

Lemma brute_force_decrypt_shape db text :
  exists results,
    brute_force_decrypt db __init__ text = Ok results
    /\ List.length results = 25%nat
    /\ dict_keys results = range 1 26
    /\ range 1 26 = [1;2;3;4;5;6;7;8;9;10;11;12;13;14;15;16;17;18;19;20;21;22;23;24;25]
    /\ forall s, 1 <= s <= 25 ->
         exists text', decrypt db __init__ text s = Ok text'
                       /\ dict_get results s = Some text'.
Proof.
  eexists. split; [apply brute_force_decrypt_entries|].
  split; [now rewrite length_map|].
  split; [unfold dict_keys; rewrite map_map; cbn [fst]; apply map_id|].
  split; [reflexivity|].
  intros s Hs. eexists. split.
  - unfold decrypt. apply cipher_valid, Hs.
  - cbn [signed].
    apply (dict_get_map (fun s => map (rotate db (- s)) text)).
    vm_compute. cbn [In]. lia.
Qed.

(** C4 (refuted on the code): the entry of the brute-force result at the
    shift that produced the ciphertext is not the plaintext when the
    plaintext holds an alphabetic character outside ASCII.  The result does
    have its 25 entries, keyed 1 to 25 in ascending order, each the
    decryption by its key. *)
Theorem brute_force_misses_non_ascii_plaintext db text shift i c :
  1 <= shift <= 25 ->
  nth_error text i = Some c ->
  isalpha db c = true ->
  ~ (0 <= c < 128) ->
  exists results candidate,
    brute_force_of_encrypted db text shift = Ok results
    /\ dict_keys results = range 1 26
    /\ dict_get results shift = Some candidate
    /\ candidate <> text.
Proof.
  intros H Hi Ha Hc.
  unfold brute_force_of_encrypted, encrypt.
  rewrite cipher_valid by exact H. cbn [bind signed].
  destruct (brute_force_decrypt_shape db (map (rotate db shift) text))
    as (results & Hr & _ & Hk & _ & Hget).
  destruct (Hget shift H) as (text' & Hd & Hg).
  unfold decrypt in Hd. rewrite cipher_valid in Hd by exact H.
  injection Hd as <-. cbn [signed] in Hg. rewrite map_map in Hg.
  exists results. eexists. repeat split; [exact Hr | exact Hk | exact Hg |].
  apply (map_moves_position _ text i c Hi).
  apply rotate_back_non_ascii_letter; assumption.
Qed.

Lemma brute_force_misses_non_ascii_plaintext_witness :
  exists results candidate,
    brute_force_of_encrypted latin1_db [233] 1 = Ok results
    /\ dict_keys results = range 1 26
    /\ dict_get results 1 = Some candidate
    /\ candidate <> [233].
Proof.
  apply (brute_force_misses_non_ascii_plaintext latin1_db [233] 1 0 233);
    [lia | reflexivity | reflexivity | lia].
Defined.

(** Brute force over the encryption of U+00E9 with shift 1: the candidate at
    key 1 is "g". *)
Example brute_force_e_acute :
  exists results,
    brute_force_of_encrypted latin1_db [233] 1 = Ok results
    /\ dict_get results 1 = Some (lit "g").
Proof. eexists. split; reflexivity. Qed.

(** X22: with a shift in 1..25 and a plaintext whose letters are all ASCII,
    brute force over the encryption has the plaintext at the key of that
    shift. *)
Lemma brute_force_recovers_ascii_plaintext db text shift :
  1 <= shift <= 25 ->
  Forall (fun c => isalpha db c = true -> 0 <= c < 128) text ->
  exists results,
    brute_force_of_encrypted db text shift = Ok results
    /\ dict_get results shift = Some text.
Proof.
  intros H Hall.
  pose proof (roundtrip_when_letters_are_ascii db text shift H Hall) as Hrt.
  unfold brute_force_of_encrypted, roundtrip, encrypt in *.
  rewrite cipher_valid in * by exact H. cbn [bind] in *.
  destruct (brute_force_decrypt_shape db (map (rotate db (signed shift false)) text))
    as (results & Hr & _ & _ & _ & Hget).
  destruct (Hget shift H) as (text' & Hd & Hg).
  rewrite Hrt in Hd. injection Hd as <-.
  exists results. auto.
Qed.

(** ** [splitext] *)

Lemma clamp_nonneg p i : 0 <= i -> clamp p i = Nat.min (Z.to_nat i) (List.length p).
Proof.
  intros H. unfold clamp, len.
  replace (i <? 0) with false by lia. lia.
Qed.

Lemma slice_to_0 p : slice_to p 0 = [].
Proof.
  unfold slice_to. rewrite clamp_nonneg by lia. reflexivity.
Qed.

Lemma slice_to_from p i : slice_to p i ++ slice_from p i = p.
Proof. apply firstn_skipn. Qed.

(** What [rfind] finds: nothing (and then the character does not occur), or
    the position of an occurrence after which there is no other. *)
Lemma rfind_from_spec c : forall p i last,
  last < i ->
  let r := rfind_from p c i last in
  (r = last /\ ~ In c p)
  \/ (i <= r < i + len p
      /\ exists rest, skipn (Z.to_nat (r - i)) p = c :: rest /\ ~ In c rest).
Proof.
  induction p as [|x p IH]; intros i last Hlt; cbn [rfind_from].
  - left. split; [reflexivity|intros []].
  - cbv zeta.
    assert (Hlen : len (x :: p) = len p + 1) by (unfold len; cbn [List.length]; lia).
    destruct (Z.eqb_spec x c) as [->|Hne].
    + destruct (IH (i + 1) i ltac:(lia)) as [[Hr Hnin]|[Hr (rest & Hs & Hnin)]].
      * right. rewrite Hr. split; [unfold len in *; lia|].
        exists p. replace (i - i) with 0 by lia. cbn. auto.
      * right. split; [lia|]. exists rest. split; [|exact Hnin].
        replace (Z.to_nat (rfind_from p c (i + 1) i - i))
          with (S (Z.to_nat (rfind_from p c (i + 1) i - (i + 1)))) by lia.
        exact Hs.
    + destruct (IH (i + 1) last ltac:(lia)) as [[Hr Hnin]|[Hr (rest & Hs & Hnin)]].
      * left. split; [exact Hr|]. cbn [In]. intros [Heq|Hin]; auto.
      * right. split; [lia|]. exists rest. split; [|exact Hnin].
        replace (Z.to_nat (rfind_from p c (i + 1) last - i))
          with (S (Z.to_nat (rfind_from p c (i + 1) last - (i + 1)))) by lia.
        exact Hs.
Qed.

Lemma rfind_spec p c :
  (rfind p c = -1 /\ ~ In c p)
  \/ (0 <= rfind p c < len p
      /\ exists rest, skipn (Z.to_nat (rfind p c)) p = c :: rest /\ ~ In c rest).
Proof.
  unfold rfind.
  destruct (rfind_from_spec c p 0 (-1) ltac:(lia)) as [H|[H (rest & Hs & Hn)]].
  - left. exact H.
  - right. split; [lia|]. exists rest. rewrite Z.sub_0_r in Hs. auto.
Qed.

Lemma skip_leading_dots_cases n p extsep dotIndex filenameIndex :
  skip_leading_dots n p extsep dotIndex filenameIndex = (p, [])
  \/ skip_leading_dots n p extsep dotIndex filenameIndex
     = (slice_to p dotIndex, slice_from p dotIndex).
Proof.
  revert filenameIndex.
  induction n as [|n IH]; intros filenameIndex; cbn [skip_leading_dots];
    rewrite ?slice_to_0.
  - left. reflexivity.
  - destruct (filenameIndex <? dotIndex); [|left; reflexivity].
    destruct (negb _); [right; reflexivity|apply IH].
Qed.

Lemma _splitext_cases p sep altsep extsep :
  _splitext p sep altsep extsep = (p, [])
  \/ (0 <= rfind p extsep
      /\ rfind p sep < rfind p extsep
      /\ _splitext p sep altsep extsep
         = (slice_to p (rfind p extsep), slice_from p (rfind p extsep))).
Proof.
  unfold _splitext.
  set (si := match altsep with
             | Some a => Z.max (rfind p sep) (rfind p a)
             | None => rfind p sep
             end).
  assert (Hsi : rfind p sep <= si) by (subst si; destruct altsep; lia).
  assert (Hm : -1 <= rfind p sep) by (destruct (rfind_spec p sep); lia).
  rewrite slice_to_0.
  destruct (Z.gtb_spec (rfind p extsep) si) as [Hgt|Hle]; [|left; reflexivity].
  destruct (skip_leading_dots_cases
              (Z.to_nat (rfind p extsep - (si + 1))) p extsep (rfind p extsep) (si + 1))
    as [->| ->]; [left; reflexivity|].
  right. repeat split; lia.
Qed.

Lemma skipn_suffix_not_in {A} (x : A) (l : list A) (a b : nat) :
  (a <= b)%nat -> ~ In x (skipn a l) -> ~ In x (skipn b l).
Proof.
  intros Hab Hn Hin. apply Hn.
  replace b with ((b - a) + a)%nat in Hin by lia.
  rewrite <- skipn_skipn in Hin.
  rewrite <- (firstn_skipn (b - a) (skipn a l)).
  apply in_or_app. right. exact Hin.
Qed.

(** [splitext] cuts the path in two; the second part is empty, or starts
    at the last dot of the path and holds no separator. *)
Lemma splitext_splits os p :
  let (name, ext) := splitext os p in
  name ++ ext = p
  /\ (ext = []
      \/ exists rest,
           ext = char_of "." :: rest
           /\ ~ In (char_of ".") rest
           /\ ~ In (char_of (match os with posixpath => "/" | ntpath => "\" end)) ext).
Proof.
  assert (Hgen : forall sep altsep,
    let (name, ext) := _splitext p sep altsep 46 in
    name ++ ext = p
    /\ (ext = [] \/ exists rest, ext = 46 :: rest /\ ~ In 46 rest /\ ~ In sep ext)).
  { intros sep altsep.
    destruct (_splitext_cases p sep altsep 46) as [->|(Hd & Hlt & ->)].
    - split; [apply app_nil_r|left; reflexivity].
    - split; [apply slice_to_from|]. right.
      destruct (rfind_spec p 46) as [[Hr _]|[Hr (rest & Hs & Hnin)]]; [lia|].
      unfold slice_from. rewrite clamp_nonneg by lia.
      replace (Nat.min (Z.to_nat (rfind p 46)) (List.length p))
        with (Z.to_nat (rfind p 46)) by (unfold len in Hr; lia).
      exists rest. split; [exact Hs|]. split; [exact Hnin|].
      destruct (rfind_spec p sep) as [[_ Hn]|[Hrs (rest' & Hs' & Hnin')]].
      + intros Hin. apply Hn.
        rewrite <- (firstn_skipn (Z.to_nat (rfind p 46)) p).
        apply in_or_app. right. exact Hin.
      + apply (skipn_suffix_not_in sep p (S (Z.to_nat (rfind p sep)))); [lia|].
        replace (S (Z.to_nat (rfind p sep))) with (1 + Z.to_nat (rfind p sep))%nat by lia.
        rewrite <- skipn_skipn, Hs'. exact Hnin'. }
  destruct os; cbn [splitext].
  - exact (Hgen 47 None).
  - exact (Hgen 92 (Some 47)).
Qed.

Example splitext_notes :
  splitext posixpath (lit "docs/notes.txt") = (lit "docs/notes", lit ".txt")
  /\ splitext posixpath (lit ".bashrc") = (lit ".bashrc", lit "")
  /\ splitext posixpath (lit "..x") = (lit "..x", lit "")
  /\ splitext posixpath (lit "dir/.hidden.txt") = (lit "dir/.hidden", lit ".txt")
  /\ splitext posixpath (lit "a.b/readme") = (lit "a.b/readme", lit "")
  /\ splitext posixpath (lit "archive.tar.gz") = (lit "archive.tar", lit ".gz")
  /\ splitext ntpath (lit "a.b/readme") = (lit "a.b/readme", lit "")
  /\ splitext ntpath (lit "docs/notes.txt") = (lit "docs/notes", lit ".txt").
Proof. repeat split. Qed.

(** *** [splitext] finds the extension

    [splitext] is compared with the description of a path's extension
    given by [extension_split]. *)

Lemma len_app a b : len (a ++ b) = len a + len b.
Proof. unfold len. rewrite length_app. lia. Qed.

Lemma len_cons x a : len (x :: a) = len a + 1.
Proof. unfold len. cbn [List.length]. lia. Qed.

Lemma len_nonneg a : 0 <= len a.
Proof. unfold len. lia. Qed.

Lemma clamp_prefix a l : clamp (a ++ l) (len a) = List.length a.
Proof.
  rewrite clamp_nonneg by apply len_nonneg.
  unfold len. rewrite Nat2Z.id, length_app. lia.
Qed.

Lemma slice_to_app a l : slice_to (a ++ l) (len a) = a.
Proof.
  unfold slice_to. rewrite clamp_prefix.
  rewrite firstn_app, Nat.sub_diag, firstn_all. cbn [firstn]. apply app_nil_r.
Qed.

Lemma slice_from_app a l : slice_from (a ++ l) (len a) = l.
Proof.
  unfold slice_from. rewrite clamp_prefix.
  rewrite skipn_app, Nat.sub_diag, skipn_all. reflexivity.
Qed.

Lemma slice_one a x l : slice (a ++ x :: l) (len a) (len a + 1) = [x].
Proof.
  assert (H1 : clamp (a ++ x :: l) (len a) = List.length a) by apply clamp_prefix.
  assert (H2 : clamp (a ++ x :: l) (len a + 1) = S (List.length a)).
  { rewrite clamp_nonneg by (pose proof (len_nonneg a); lia).
    unfold len. rewrite length_app. cbn [List.length]. lia. }
  unfold slice. rewrite H1, H2.
  replace (S (List.length a) - List.length a)%nat with 1%nat by lia.
  rewrite skipn_app, Nat.sub_diag, skipn_all. reflexivity.
Qed.

(** [rfind], as a cut of the string at the last occurrence. *)
Lemma rfind_split p c :
  (rfind p c = -1 /\ ~ In c p)
  \/ (exists a b, p = a ++ c :: b /\ ~ In c b /\ rfind p c = len a).
Proof.
  destruct (rfind_spec p c) as [H|[Hr (rest & Hs & Hn)]]; [left; exact H|right].
  exists (firstn (Z.to_nat (rfind p c)) p), rest. split.
  - rewrite <- Hs. symmetry. apply firstn_skipn.
  - split; [exact Hn|]. unfold len in *. rewrite length_firstn. lia.
Qed.

Lemma app_eq_app_le {A} : forall (l1 l2 r1 r2 : list A),
  l1 ++ r1 = l2 ++ r2 -> (List.length l1 <= List.length l2)%nat ->
  exists m, l2 = l1 ++ m /\ r1 = m ++ r2.
Proof.
  induction l1 as [|x l1 IH]; intros l2 r1 r2 H Hl.
  - exists l2. split; [reflexivity|exact H].
  - destruct l2 as [|y l2]; [cbn in Hl; lia|].
    cbn [app] in H. injection H as Hxy H. subst y.
    destruct (IH l2 r1 r2 H) as (m & Hm & Hr); [cbn in Hl; lia|].
    exists m. split; [cbn [app]; rewrite Hm; reflexivity|exact Hr].
Qed.

(** A string is cut at the last occurrence of a character in one way. *)
Lemma last_occurrence_unique (c : char) s b s' b' :
  s ++ c :: b = s' ++ c :: b' -> ~ In c b -> ~ In c b' -> s = s' /\ b = b'.
Proof.
  assert (Hle : forall s b s' b',
    s ++ c :: b = s' ++ c :: b' -> ~ In c b ->
    (List.length s <= List.length s')%nat -> s = s' /\ b = b').
  { clear. intros s b s' b' H Hn Hl.
    destruct (app_eq_app_le s s' (c :: b) (c :: b') H Hl) as (m & Hm & Hr).
    destruct m as [|y m].
    - rewrite app_nil_r in Hm. cbn [app] in Hr. injection Hr as Hr. auto.
    - cbn [app] in Hr. injection Hr as Hy Hr. exfalso. apply Hn.
      rewrite Hr. apply in_or_app. right. left. reflexivity. }
  intros H Hn Hn'.
  destruct (Nat.le_ge_cases (List.length s) (List.length s')) as [Hl|Hl].
  - exact (Hle s b s' b' H Hn Hl).
  - destruct (Hle s' b' s b (eq_sym H) Hn' Hl) as [-> ->]. auto.
Qed.

(** A path has one last component. *)
Lemma last_component_unique os p dir comp dir' comp' :
  last_component os p dir comp -> last_component os p dir' comp' ->
  dir = dir' /\ comp = comp'.
Proof.
  assert (Hle : forall dir comp dir' comp',
    last_component os p dir comp -> last_component os p dir' comp' ->
    (List.length dir <= List.length dir')%nat -> dir = dir' /\ comp = comp').
  { clear. intros dir comp dir' comp' (Hp & Hc & _) (Hp' & _ & Hd') Hl.
    rewrite Hp in Hp'.
    destruct (app_eq_app_le dir dir' comp comp' Hp' Hl) as (m & Hm & Hr).
    destruct m as [|y m].
    - rewrite app_nil_r in Hm. cbn [app] in Hr. auto.
    - exfalso.
      destruct Hd' as [Hd'|(d & c & Hd' & Hsep)].
      + rewrite Hd' in Hm. destruct dir; discriminate Hm.
      + destruct (exists_last (l := y :: m)) as (m0 & c' & Hlast); [discriminate|].
        rewrite Hlast, Hd', app_assoc in Hm.
        apply app_inj_tail in Hm. destruct Hm as [_ Hc'].
        assert (Hin : In c comp).
        { rewrite Hr, Hlast, Hc'. apply in_or_app. left.
          apply in_or_app. right. left. reflexivity. }
        rewrite Forall_forall in Hc. specialize (Hc c Hin). congruence. }
  intros H H'.
  destruct (Nat.le_ge_cases (List.length dir) (List.length dir')) as [Hl|Hl].
  - exact (Hle dir comp dir' comp' H H' Hl).
  - destruct (Hle dir' comp' dir comp H' H Hl) as [-> ->]. auto.
Qed.

(** A path has at most one extension. *)
Lemma has_extension_unique os p name ext name' ext' :
  has_extension os p name ext -> has_extension os p name' ext' ->
  name = name' /\ ext = ext'.
Proof.
  intros (dir & stem & rest & Hc & Hn & _ & -> & ->)
         (dir' & stem' & rest' & Hc' & Hn' & _ & -> & ->).
  destruct (last_component_unique os p _ _ _ _ Hc Hc') as [-> Hcomp].
  destruct (last_occurrence_unique 46 _ _ _ _ Hcomp Hn Hn') as [-> ->]. auto.
Qed.

Lemma extension_split_unique os p name ext name' ext' :
  extension_split os p name ext -> extension_split os p name' ext' ->
  name = name' /\ ext = ext'.
Proof.
  intros [H|(-> & -> & H)] [H'|(-> & -> & H')].
  - exact (has_extension_unique os p _ _ _ _ H H').
  - destruct (H' _ _ H).
  - destruct (H _ _ H').
  - auto.
Qed.

Lemma forallb_false_Exists {A} (f : A -> bool) l :
  forallb f l = false -> Exists (fun x => f x = false) l.
Proof.
  induction l as [|x l IH]; cbn [forallb]; [discriminate|].
  destruct (f x) eqn:E; cbn [andb]; intros H.
  - apply Exists_cons_tl, IH, H.
  - apply Exists_cons_hd, E.
Qed.

(** The loop over the dots that start the last component: it stops at the
    first character that is no dot and cuts the path at the last dot, or
    runs into the last dot and cuts nothing. *)
Lemma skip_leading_dots_stem b : forall stem q,
  skip_leading_dots (List.length stem) (q ++ stem ++ 46 :: b) 46
    (len q + len stem) (len q)
  = if forallb (fun c => c =? 46) stem
    then (q ++ stem ++ 46 :: b, [])
    else (q ++ stem, 46 :: b).
Proof.
  induction stem as [|x s IH]; intros q.
  - cbn [List.length skip_leading_dots forallb]. rewrite slice_to_0. reflexivity.
  - cbn [List.length skip_leading_dots forallb]. rewrite len_cons.
    replace (len q <? len q + (len s + 1)) with true
      by (pose proof (len_nonneg s); lia).
    cbn [app]. rewrite slice_one.
    unfold str_eqb. destruct (list_eq_dec Z.eq_dec _ _) as [E|N].
    + injection E as ->. cbn [negb]. rewrite Z.eqb_refl. cbn [andb].
      specialize (IH (q ++ [46])). rewrite len_app in IH.
      rewrite <- !app_assoc in IH. cbn [app] in IH.
      change (len [46]) with 1 in IH.
      replace (len q + (len s + 1)) with (len q + 1 + len s) by lia.
      exact IH.
    + cbn [negb]. destruct (Z.eqb_spec x 46) as [->|_]; [congruence|].
      cbn [andb].
      replace (q ++ x :: s ++ 46 :: b) with ((q ++ x :: s) ++ 46 :: b)
        by (rewrite <- app_assoc; reflexivity).
      replace (len q + (len s + 1)) with (len (q ++ x :: s))
        by (rewrite len_app, len_cons; reflexivity).
      rewrite slice_to_app, slice_from_app. reflexivity.
Qed.

(** The body of [_splitext] once the separator index is known to end the
    directory part [dir]. *)
Lemma _splitext_after_sep p dir comp sepIndex :
  p = dir ++ comp -> sepIndex = len dir - 1 ->
  let r := if rfind p 46 >? sepIndex
           then skip_leading_dots (Z.to_nat (rfind p 46 - (sepIndex + 1))) p 46
                  (rfind p 46) (sepIndex + 1)
           else (p, slice_to p 0) in
  (exists stem rest,
     comp = stem ++ 46 :: rest /\ ~ In 46 rest /\ Exists (fun c => c <> 46) stem
     /\ r = (dir ++ stem, 46 :: rest))
  \/ (r = (p, [])
      /\ forall stem rest,
           comp = stem ++ 46 :: rest -> ~ In 46 rest ->
           ~ Exists (fun c => c <> 46) stem).
Proof.
  intros Hp Hsi r. subst r. rewrite slice_to_0.
  pose proof (len_nonneg dir) as Hdir.
  destruct (rfind_split p 46) as [[Hr Hnone]|(a & b & Ha & Hb & Hr)].
  - right. rewrite Hr. replace (-1 >? sepIndex) with false by lia.
    split; [reflexivity|]. intros stem rest Hc _ _. apply Hnone.
    rewrite Hp, Hc. apply in_or_app. right. apply in_or_app. right. left. reflexivity.
  - rewrite Hr. rewrite Hp in Ha.
    destruct (Nat.le_gt_cases (List.length dir) (List.length a)) as [Hl|Hl].
    + destruct (app_eq_app_le dir a comp (46 :: b) Ha Hl) as (m & Hm & Hc).
      replace (len a >? sepIndex) with true by (unfold len in *; lia).
      replace (Z.to_nat (len a - (sepIndex + 1))) with (List.length m)
        by (rewrite Hsi, Hm, len_app; unfold len; lia).
      replace (sepIndex + 1) with (len dir) by lia.
      rewrite Hm, len_app, Hp, Hc, skip_leading_dots_stem.
      destruct (forallb (fun c => c =? 46) m) eqn:Hdots.
      * right. split; [reflexivity|]. intros stem rest Hc' Hrest Hex.
        destruct (last_occurrence_unique 46 _ _ _ _ Hc' Hb Hrest) as [<- _].
        rewrite forallb_forall in Hdots. apply Exists_exists in Hex.
        destruct Hex as (x & Hin & Hx). specialize (Hdots x Hin). lia.
      * left. exists m, b. split; [reflexivity|]. split; [exact Hb|].
        split; [|reflexivity].
        apply forallb_false_Exists in Hdots.
        eapply Exists_impl; [|exact Hdots]. cbn beta. intros x Hx. lia.
    + right.
      destruct (app_eq_app_le a dir (46 :: b) comp (eq_sym Ha)) as (m & Hm & Hc);
        [lia|].
      replace (len a >? sepIndex) with false by (unfold len in *; lia).
      split; [reflexivity|]. intros stem rest Hc' _ _.
      destruct m as [|y m].
      * rewrite app_nil_r in Hm. subst dir. lia.
      * cbn [app] in Hc. injection Hc as _ Hc. apply Hb. rewrite Hc, Hc'.
        apply in_or_app. right. apply in_or_app. right. left. reflexivity.
Qed.

(** The directory part ends at the last occurrence of a separator. *)
Lemma rfind_directory p c :
  exists dir comp,
    p = dir ++ comp /\ ~ In c comp
    /\ (dir = [] \/ exists d, dir = d ++ [c])
    /\ rfind p c = len dir - 1.
Proof.
  destruct (rfind_split p c) as [[Hr Hn]|(a & b & Hp & Hb & Hr)].
  - exists [], p. split; [reflexivity|]. split; [exact Hn|].
    split; [left; reflexivity|exact Hr].
  - exists (a ++ [c]), b. split; [rewrite <- app_assoc; exact Hp|].
    split; [exact Hb|]. split; [right; exists a; reflexivity|].
    rewrite Hr, len_app. change (len [c]) with 1. lia.
Qed.

Lemma sep_index_posixpath p :
  exists dir comp,
    last_component posixpath p dir comp /\ rfind p 47 = len dir - 1.
Proof.
  destruct (rfind_directory p 47) as (dir & comp & Hp & Hn & Hd & Hr).
  exists dir, comp. split; [|exact Hr].
  split; [exact Hp|]. split.
  - apply Forall_forall. intros x Hx. cbn [is_sep].
    destruct (Z.eqb_spec x 47) as [->|_]; [contradiction|reflexivity].
  - destruct Hd as [->|(d & ->)]; [left; reflexivity|].
    right. exists d, 47. split; reflexivity.
Qed.

Lemma sep_index_ntpath p :
  exists dir comp,
    last_component ntpath p dir comp
    /\ Z.max (rfind p 92) (rfind p 47) = len dir - 1.
Proof.
  destruct (rfind_directory p 92) as (d1 & c1 & Hp1 & Hn1 & Hd1 & Hr1).
  destruct (rfind_directory p 47) as (d2 & c2 & Hp2 & Hn2 & Hd2 & Hr2).
  assert (Hnt : forall x, x <> 92 -> x <> 47 -> is_sep ntpath x = false).
  { intros x H1 H2. cbn [is_sep].
    destruct (Z.eqb_spec x 92); [contradiction|].
    destruct (Z.eqb_spec x 47); [contradiction|reflexivity]. }
  destruct (Nat.le_ge_cases (List.length d1) (List.length d2)) as [Hl|Hl].
  - (* the last separator is a slash, or there is none *)
    exists d2, c2. split; [|unfold len in *; lia].
    rewrite Hp1 in Hp2.
    destruct (app_eq_app_le d1 d2 c1 c2 Hp2 Hl) as (m & Hm & Hc).
    split; [congruence|]. split.
    + apply Forall_forall. intros x Hx. apply Hnt.
      * intros ->. apply Hn1. rewrite Hc. apply in_or_app. right. exact Hx.
      * intros ->. contradiction.
    + destruct Hd2 as [->|(d & ->)]; [left; reflexivity|].
      right. exists d, 47. split; reflexivity.
  - exists d1, c1. split; [|unfold len in *; lia].
    rewrite Hp2 in Hp1.
    destruct (app_eq_app_le d2 d1 c2 c1 Hp1 Hl) as (m & Hm & Hc).
    split; [congruence|]. split.
    + apply Forall_forall. intros x Hx. apply Hnt.
      * intros ->. contradiction.
      * intros ->. apply Hn2. rewrite Hc. apply in_or_app. right. exact Hx.
    + destruct Hd1 as [->|(d & ->)]; [left; reflexivity|].
      right. exists d, 92. split; reflexivity.
Qed.

(** [splitext] cuts off the extension of the path, as [extension_split]
    describes it, and nothing else does. *)
Lemma splitext_extension_split os p :
  extension_split os p (fst (splitext os p)) (snd (splitext os p)).
Proof.
  assert (Hgen : forall dir comp si,
    last_component os p dir comp -> si = len dir - 1 ->
    let r := if rfind p 46 >? si
             then skip_leading_dots (Z.to_nat (rfind p 46 - (si + 1))) p 46
                    (rfind p 46) (si + 1)
             else (p, slice_to p 0) in
    extension_split os p (fst r) (snd r)).
  { intros dir comp si Hlc Hsi.
    pose proof Hlc as (Hp & _).
    destruct (_splitext_after_sep p dir comp si Hp Hsi)
      as [(stem & rest & Hc & Hn & Hex & Hr)|[Hr Hnone]];
      cbv zeta;
      match type of Hr with ?l = _ => change (extension_split os p (fst l) (snd l)) end;
      rewrite Hr; cbn [fst snd].
    - left. exists dir, stem, rest. rewrite <- Hc. auto.
    - right. split; [reflexivity|]. split; [reflexivity|].
      intros n e (dir' & stem' & rest' & Hlc' & Hn' & Hex' & _).
      destruct (last_component_unique os p _ _ _ _ Hlc Hlc') as [_ Hcomp].
      exact (Hnone stem' rest' Hcomp Hn' Hex'). }
  destruct os; cbn [splitext]; unfold _splitext.
  - destruct (sep_index_posixpath p) as (dir & comp & Hlc & Hsi).
    exact (Hgen dir comp _ Hlc Hsi).
  - destruct (sep_index_ntpath p) as (dir & comp & Hlc & Hsi).
    exact (Hgen dir comp _ Hlc Hsi).
Qed.

Lemma extension_split_splitext os p name ext :
  extension_split os p name ext <-> splitext os p = (name, ext).
Proof.
  pose proof (splitext_extension_split os p) as H. split.
  - intros H'. destruct (extension_split_unique os p _ _ _ _ H H') as [Hn He].
    destruct (splitext os p). cbn [fst snd] in Hn, He. congruence.
  - intros E. rewrite E in H. exact H.
Qed.

(** The description at work, without [splitext]: the extension of
    [docs/notes.txt] is [.txt], and [.bashrc] and [a.b/readme] have none. *)
Example extension_split_notes :
  extension_split posixpath (lit "docs/notes.txt") (lit "docs/notes") (lit ".txt")
  /\ extension_split posixpath (lit ".bashrc") (lit ".bashrc") (lit "")
  /\ extension_split posixpath (lit "a.b/readme") (lit "a.b/readme") (lit "")
  /\ extension_split ntpath (lit "docs\notes.tar.gz") (lit "docs\notes.tar") (lit ".gz").
Proof.
  assert (Hdots : forall l : str,
    forallb (fun c => c =? 46) l = true -> ~ Exists (fun c => c <> 46) l).
  { intros l Hl Hex. rewrite forallb_forall in Hl. apply Exists_exists in Hex.
    destruct Hex as (x & Hin & Hx). specialize (Hl x Hin). lia. }
  assert (Hnosep : forall os (l : str),
    forallb (fun c => negb (is_sep os c)) l = true ->
    Forall (fun c => is_sep os c = false) l).
  { intros os l Hl. rewrite forallb_forall in Hl. apply Forall_forall.
    intros x Hx. specialize (Hl x Hx). destruct (is_sep os x); [discriminate|reflexivity]. }
  assert (Hnotin : forall (l : str),
    forallb (fun c => negb (c =? 46)) l = true -> ~ In 46 l).
  { intros l Hl Hin. rewrite forallb_forall in Hl. specialize (Hl 46 Hin).
    discriminate. }
  split; [|split; [|split]].
  - left. exists (lit "docs/"), (lit "notes"), (lit "txt").
    split; [split; [reflexivity|split]|split; [|split; [|split; reflexivity]]].
    + apply (Hnosep posixpath). reflexivity.
    + right. exists (lit "docs"), 47. split; reflexivity.
    + apply Hnotin. reflexivity.
    + apply Exists_cons_hd. discriminate.
  - right. split; [reflexivity|]. split; [reflexivity|].
    intros n e (dir & stem & rest & Hlc & Hn & Hex & _).
    assert (Hl : last_component posixpath (lit ".bashrc") [] (lit ".bashrc")).
    { split; [reflexivity|]. split; [apply (Hnosep posixpath); reflexivity|].
      left. reflexivity. }
    destruct (last_component_unique _ _ _ _ _ _ Hl Hlc) as [_ Hcomp].
    destruct (last_occurrence_unique 46 [] (lit "bashrc") stem rest Hcomp) as [<- _];
      [apply Hnotin; reflexivity|exact Hn|].
    inversion Hex.
  - right. split; [reflexivity|]. split; [reflexivity|].
    intros n e (dir & stem & rest & Hlc & Hn & Hex & _).
    assert (Hl : last_component posixpath (lit "a.b/readme") (lit "a.b/") (lit "readme")).
    { split; [reflexivity|]. split; [apply (Hnosep posixpath); reflexivity|].
      right. exists (lit "a.b"), 47. split; reflexivity. }
    destruct (last_component_unique _ _ _ _ _ _ Hl Hlc) as [_ Hcomp].
    assert (Hin : In 46 (lit "readme")).
    { rewrite Hcomp. apply in_or_app. right. left. reflexivity. }
    revert Hin. apply Hnotin. reflexivity.
  - left. exists (lit "docs\"), (lit "notes.tar"), (lit "gz").
    split; [split; [reflexivity|split]|split; [|split; [|split; reflexivity]]].
    + apply (Hnosep ntpath). reflexivity.
    + right. exists (lit "docs"), 92. split; reflexivity.
    + apply Hnotin. reflexivity.
    + apply Exists_cons_hd. discriminate.
Qed.

(** ** The file helpers *)

Lemma try_except_report_errors {os} (body : io os bool) input_file w :
  try_except body (report_errors os input_file) w
  = match body w with
    | (w', Ok a) => (w', Ok a)
    | (w', Raise e) => recover input_file e w'
    end.
Proof.
  unfold try_except. destruct (body w) as [w' [a|e]]; [reflexivity|].
  destruct e; reflexivity.
Qed.

Lemma file_helper_steps db os decrypt input_file shift output_file w :
  file_helper db os decrypt input_file shift output_file w
  = match read_text os (fs w) input_file with
    | Raise e => recover input_file e w
    | Ok content =>
        match cipher db __init__ content shift decrypt with
        | Raise e => recover input_file e w
        | Ok text =>
            let (fs', r) :=
              write_text os (fs w) (output_path os decrypt input_file output_file) text in
            match r with
            | Ok _ => ({| fs := fs'; stdout := stdout w |}, Ok true)
            | Raise e => recover input_file e {| fs := fs'; stdout := stdout w |}
            end
        end
    end.
Proof.
  unfold file_helper, output_path, derived_path.
  destruct decrypt;
    unfold decrypt_file, encrypt_file, CaesarCipher.decrypt, CaesarCipher.encrypt;
    rewrite try_except_report_errors;
    unfold io_bind, open_read, io_lift, open_write, io_ret;
    (destruct (read_text os (fs w) input_file) as [content|e]; [|reflexivity]);
    (destruct (cipher db __init__ content shift _) as [text|e]; [|destruct w; reflexivity]);
    destruct output_file as [o|];
    try destruct (splitext (os_path_module os) input_file) as [name ext];
    cbn [fst snd fs stdout];
    destruct (write_text os (fs w) _ text) as [fs' [[]|e]]; reflexivity.
Qed.

(** C7: with a shift in 1..25, a readable input file and no output path,
    [encrypt_file] writes the encrypted content to the input path with
    [_encrypted] inserted before its extension, and [decrypt_file] writes
    the decrypted content to the input path with [_decrypted] inserted
    there; that is the only write they make.  The extension is the one
    [extension_split] describes, and no other cut of the path fits that
    description: it starts at the last dot of the last path component when
    a character other than a dot comes before that dot in the component,
    and is empty otherwise.  It is what [splitext] returns. *)
Theorem file_helpers_derive_output_path os db input_file shift content w :
  1 <= shift <= 25 ->
  read_text os (fs w) input_file = Ok content ->
  exists name ext enc dec,
    name ++ ext = input_file
    /\ extension_split (os_path_module os) input_file name ext
    /\ (forall name' ext',
          extension_split (os_path_module os) input_file name' ext' ->
          name' = name /\ ext' = ext)
    /\ splitext (os_path_module os) input_file = (name, ext)
    /\ (ext = [] \/ exists rest, ext = char_of "." :: rest /\ ~ In (char_of ".") rest)
    /\ encrypt db __init__ content shift = Ok enc
    /\ decrypt db __init__ content shift = Ok dec
    /\ encrypt_file db __init__ os input_file shift None w
       = (let (fs', r) :=
            write_text os (fs w) (name ++ lit "_encrypted" ++ ext) enc in
          match r with
          | Ok _ => ({| fs := fs'; stdout := stdout w |}, Ok true)
          | Raise e => recover input_file e {| fs := fs'; stdout := stdout w |}
          end)
    /\ decrypt_file db __init__ os input_file shift None w
       = (let (fs', r) :=
            write_text os (fs w) (name ++ lit "_decrypted" ++ ext) dec in
          match r with
          | Ok _ => ({| fs := fs'; stdout := stdout w |}, Ok true)
          | Raise e => recover input_file e {| fs := fs'; stdout := stdout w |}
          end).
Proof.
  intros H Hread.
  pose proof (splitext_splits (os_path_module os) input_file) as Hsplit.
  pose proof (splitext_extension_split (os_path_module os) input_file) as Hext_split.
  pose proof (file_helper_steps db os false input_file shift None w) as He.
  pose proof (file_helper_steps db os true input_file shift None w) as Hd.
  cbn [file_helper output_path] in He, Hd. unfold derived_path in He, Hd.
  rewrite Hread in He, Hd. rewrite cipher_valid in He, Hd by exact H.
  destruct (splitext (os_path_module os) input_file) as [name ext].
  destruct Hsplit as [Happ Hext]. cbn [fst snd] in He, Hd, Hext_split.
  exists name, ext. do 2 eexists.
  split; [exact Happ|]. split; [exact Hext_split|].
  split.
  { intros name' ext' H'.
    exact (extension_split_unique _ _ _ _ _ _ H' Hext_split). }
  split; [reflexivity|].
  split; [destruct Hext as [->|(rest & -> & Hn & _)]; [left; reflexivity|right; eauto]|].
  split; [apply cipher_valid, H|]. split; [apply cipher_valid, H|].
  split; [exact He|exact Hd].
Qed.

(** With [my.docs/notes.txt] holding "abc" and shift 1: the extension is
    [.txt], whatever the dot in the directory name; [encrypt_file] writes
    "bcd" to [my.docs/notes_encrypted.txt] and [decrypt_file] writes "zab"
    to [my.docs/notes_decrypted.txt]. *)
Lemma file_helpers_derive_output_path_witness :
  extension_split posixpath (lit "my.docs/notes.txt") (lit "my.docs/notes") (lit ".txt")
  /\ encrypt_file latin1_db __init__ (mem_os posixpath) (lit "my.docs/notes.txt") 1 None
       {| fs := [(lit "my.docs/notes.txt", File (lit "abc"))] : FS (mem_os posixpath);
          stdout := [] |}
     = ({| fs := [(lit "my.docs/notes_encrypted.txt", File (lit "bcd"));
                  (lit "my.docs/notes.txt", File (lit "abc"))] : FS (mem_os posixpath);
           stdout := [] |}, Ok true)
  /\ decrypt_file latin1_db __init__ (mem_os posixpath) (lit "my.docs/notes.txt") 1 None
       {| fs := [(lit "my.docs/notes.txt", File (lit "abc"))] : FS (mem_os posixpath);
          stdout := [] |}
     = ({| fs := [(lit "my.docs/notes_decrypted.txt", File (lit "zab"));
                  (lit "my.docs/notes.txt", File (lit "abc"))] : FS (mem_os posixpath);
           stdout := [] |}, Ok true).
Proof.
  destruct (file_helpers_derive_output_path (mem_os posixpath) latin1_db
              (lit "my.docs/notes.txt") 1 (lit "abc")
              {| fs := [(lit "my.docs/notes.txt", File (lit "abc"))]
                       : FS (mem_os posixpath);
                 stdout := [] |})
    as (name & ext & enc & dec & _ & Hext & _ & Hsplit & _ & Henc & Hdec & He & Hd);
    [lia | reflexivity |].
  vm_compute in Hsplit. injection Hsplit as <- <-.
  vm_compute in Henc. injection Henc as <-.
  vm_compute in Hdec. injection Hdec as <-.
  split; [exact Hext|]. split; [rewrite He|rewrite Hd]; reflexivity.
Defined.

(** Encrypting [notes.txt], which holds "abc", with shift 1 and no output
    path creates [notes_encrypted.txt] holding "bcd", prints nothing and
    returns [True]. *)
Example encrypt_file_notes :
  encrypt_file latin1_db __init__ (mem_os posixpath) (lit "notes.txt") 1 None
    {| fs := [(lit "notes.txt", File (lit "abc"))] : FS (mem_os posixpath);
       stdout := [] |}
  = ({| fs := [(lit "notes_encrypted.txt", File (lit "bcd"));
               (lit "notes.txt", File (lit "abc"))] : FS (mem_os posixpath);
        stdout := [] |},
     Ok true).
Proof. reflexivity. Qed.

(** C8: [encrypt_file] and [decrypt_file] turn every failure of reading or
    writing that is an [Exception] (a missing file, refused access, any
    other I/O error) into one printed error line and the result [False];
    they return [True], printing nothing, when reading, transforming and
    writing all succeed; and they never end with an [Exception] raised. *)
Theorem file_helpers_report_failures os db decrypt input_file shift output_file w :
  (forall e,
     read_text os (fs w) input_file = Raise e ->
     is_Exception e = true ->
     file_helper db os decrypt input_file shift output_file w
     = ({| fs := fs w; stdout := stdout w ++ [error_line input_file e] |}, Ok false))
  /\ (forall content text fs' e,
        read_text os (fs w) input_file = Ok content ->
        cipher db __init__ content shift decrypt = Ok text ->
        write_text os (fs w) (output_path os decrypt input_file output_file) text
        = (fs', Raise e) ->
        is_Exception e = true ->
        file_helper db os decrypt input_file shift output_file w
        = ({| fs := fs'; stdout := stdout w ++ [error_line input_file e] |}, Ok false))
  /\ (forall content text fs',
        read_text os (fs w) input_file = Ok content ->
        cipher db __init__ content shift decrypt = Ok text ->
        write_text os (fs w) (output_path os decrypt input_file output_file) text
        = (fs', Ok tt) ->
        file_helper db os decrypt input_file shift output_file w
        = ({| fs := fs'; stdout := stdout w |}, Ok true))
  /\ (forall w' e,
        file_helper db os decrypt input_file shift output_file w = (w', Raise e) ->
        is_Exception e = false).
Proof.
  rewrite file_helper_steps.
  split; [|split; [|split]].
  - intros e -> He. unfold recover. now rewrite He.
  - intros content text fs' e -> -> -> He. unfold recover. now rewrite He.
  - intros content text fs' -> -> ->. reflexivity.
  - intros w' e.
    assert (Hrec : forall e0 w0, recover input_file e0 w0 = (w', Raise e) ->
                                 is_Exception e = false).
    { intros e0 w0. unfold recover. destruct (is_Exception e0) eqn:E; [discriminate|].
      intros [= _ <-]. exact E. }
    destruct (read_text os (fs w) input_file) as [content|e0]; [|apply Hrec].
    destruct (cipher db __init__ content shift decrypt) as [text|e0]; [|apply Hrec].
    destruct (write_text os (fs w) _ text) as [fs' [[]|e0]]; [discriminate|apply Hrec].
Qed.

Lemma file_helpers_report_failures_witness :
  file_helper latin1_db (mem_os posixpath) false (lit "gone.txt") 3 None
    {| fs := [] : FS (mem_os posixpath); stdout := [] |}
  = ({| fs := [] : FS (mem_os posixpath);
        stdout := [cross_mark :: lit " Error: File 'gone.txt' not found."] |},
     Ok false).
Proof.
  apply (proj1 (file_helpers_report_failures (mem_os posixpath) latin1_db false
                  (lit "gone.txt") 3 None
                  {| fs := [] : FS (mem_os posixpath); stdout := [] |})
               (FileNotFoundError (lit "[Errno 2] No such file or directory")));
    reflexivity.
Defined.

(** Decrypting a file that access is refused to prints the permission line
    and returns [False]; the file system is left as it was. *)
Example decrypt_file_locked :
  decrypt_file latin1_db __init__ (mem_os posixpath) (lit "secret.txt") 3 None
    {| fs := [(lit "secret.txt", Locked)] : FS (mem_os posixpath); stdout := [] |}
  = ({| fs := [(lit "secret.txt", Locked)] : FS (mem_os posixpath);
        stdout := [cross_mark :: lit " Error: Permission denied accessing file."] |},
     Ok false).
Proof. reflexivity. Qed.

(** ** How shifts combine *)

(** A rotated letter is an ASCII letter of the case the base was chosen
    for. *)
Lemma rotate_alpha_image db k c :
  isalpha db c = true ->
  0 <= rotate db k c < 128
  /\ isalpha db (rotate db k c) = true
  /\ isupper db (rotate db k c) = isupper db c.
Proof.
  intros Ha.
  pose proof (rotate_alpha_bounds db k c Ha) as Hb. cbv zeta in Hb.
  set (o := rotate db k c) in *.
  assert (Ho : 0 <= o < 128) by (destruct (isupper db c); lia).
  split; [exact Ho|].
  rewrite (isalpha_ascii db o Ho), (isupper_ascii db o Ho).
  destruct (isupper db c); split; ranges.
Qed.

Lemma rotate_rotate db a b c :
  rotate db b (rotate db a c) = rotate db (a + b) c.
Proof.
  destruct (isalpha db c) eqn:Ha.
  - destruct (rotate_alpha_image db a c Ha) as (_ & Hoa & Hou).
    unfold rotate at 1. rewrite Hoa, Hou.
    unfold rotate. rewrite Ha.
    set (base := if isupper db c then 65 else 97).
    replace ((c - base + a) mod 26 + base - base + b)
      with ((c - base + a) mod 26 + b) by lia.
    rewrite Zplus_mod_idemp_l. f_equal. f_equal. lia.
  - unfold rotate. now rewrite Ha, Ha.
Qed.

Lemma rotate_congruent db a b c :
  (a - b) mod 26 = 0 -> rotate db a c = rotate db b c.
Proof.
  intros H. unfold rotate. destruct (isalpha db c); [|reflexivity].
  set (base := if isupper db c then 65 else 97).
  f_equal.
  replace (c - base + a) with (c - base + b + ((a - b) / 26) * 26).
  - apply Z_mod_plus_full.
  - pose proof (Z_div_mod_eq_full (a - b) 26). lia.
Qed.

Lemma rotate_moves_letters db k c :
  isalpha db c = true -> k mod 26 <> 0 -> rotate db k c <> c.
Proof.
  intros Ha Hk Heq.
  destruct (rotate_alpha_image db k c Ha) as (Ho & _ & _).
  rewrite Heq in Ho.
  pose proof (ascii_letter_bounds db c Ha Ho) as Hb. cbv zeta in Hb.
  unfold rotate in Heq. rewrite Ha, (isupper_ascii db c Ho) in Heq.
  set (base := if ascii_isupper c then 65 else 97) in *.
  apply Hk.
  pose proof (Z_div_mod_eq_full (c - base + k) 26).
  pose proof (Z_div_mod_eq_full k 26).
  pose proof (Z.mod_pos_bound k 26 ltac:(lia)).
  assert (Hq : 26 * ((c - base + k) / 26) = 26 * (k / 26) + k mod 26) by lia.
  lia.
Qed.

Lemma map_fixed_iff {A} (f : A -> A) (l : list A) :
  map f l = l <-> Forall (fun x => f x = x) l.
Proof.
  induction l as [|x l IH]; cbn [map].
  - split; [constructor|reflexivity].
  - split.
    + intros [= Hx Hl]. constructor; [exact Hx|apply IH, Hl].
    + intros H. inversion H as [|? ? Hx Hl]; subst. rewrite Hx.
      f_equal. apply IH, Hl.
Qed.

(** X1: decrypting with a shift in 1..25 is encrypting with 26 minus that
    shift, on every text. *)
Theorem decrypt_is_encrypt_by_complement db text shift :
  1 <= shift <= 25 ->
  decrypt db __init__ text shift = encrypt db __init__ text (26 - shift).
Proof.
  intros H. unfold decrypt, encrypt.
  rewrite !cipher_valid by lia. cbn [signed]. f_equal.
  apply map_ext. intros c. apply rotate_congruent.
  replace (- shift - (26 - shift)) with (-1 * 26) by lia.
  apply Z_mod_mult.
Qed.

Lemma decrypt_is_encrypt_by_complement_witness :
  decrypt latin1_db __init__ (lit "Khoor") 3 = encrypt latin1_db __init__ (lit "Khoor") (26 - 3).
Proof. apply (decrypt_is_encrypt_by_complement latin1_db (lit "Khoor") 3). lia. Defined.

(** X2: two passes of [cipher] are one pass: with shifts a, b, c in 1..25
    and any directions, when the signed shifts of the two passes add up to
    the signed shift of the third modulo 26, ciphering with a and then with
    b gives what ciphering once with c gives, on every text. *)
Theorem cipher_composes db text a (da : bool) b (db' : bool) c (dc : bool) :
  1 <= a <= 25 -> 1 <= b <= 25 -> 1 <= c <= 25 ->
  ((if da then - a else a) + (if db' then - b else b)
   - (if dc then - c else c)) mod 26 = 0 ->
  (r <- cipher db __init__ text a da ;; cipher db __init__ r b db')
  = cipher db __init__ text c dc.
Proof.
  intros Ha Hb Hc Hsum.
  rewrite (cipher_valid db text a da Ha). cbn [bind].
  rewrite !cipher_valid by assumption. f_equal.
  rewrite map_map. apply map_ext. intros x.
  rewrite rotate_rotate. apply rotate_congruent. exact Hsum.
Qed.

Lemma cipher_composes_witness :
  (r <- cipher latin1_db __init__ (lit "Zulu") 20 false ;;
   cipher latin1_db __init__ r 9 false)
  = cipher latin1_db __init__ (lit "Zulu") 3 false.
Proof.
  apply (cipher_composes latin1_db (lit "Zulu") 20 false 9 false 3 false);
    [lia | lia | lia | reflexivity].
Defined.

(** X3: with a shift in 1..25, decrypting the encryption of a text returns
    the text exactly when every alphabetic character of the text is ASCII. *)
Theorem roundtrip_exact_iff_letters_ascii db text shift :
  1 <= shift <= 25 ->
  (roundtrip db text shift = Ok text
   <-> Forall (fun c => isalpha db c = true -> 0 <= c < 128) text).
Proof.
  intros H. split.
  - rewrite roundtrip_valid by exact H. intros [= Hmap].
    apply map_fixed_iff in Hmap.
    eapply Forall_impl; [|exact Hmap]. cbn beta.
    intros c Hc Ha.
    assert (Hd : 0 <= c < 128 \/ ~ (0 <= c < 128)) by lia.
    destruct Hd as [Hd|Hd]; [exact Hd|].
    exfalso. exact (rotate_back_non_ascii_letter db shift c Ha Hd Hc).
  - apply roundtrip_when_letters_are_ascii, H.
Qed.

Lemma roundtrip_exact_iff_letters_ascii_witness :
  roundtrip latin1_db (lit "Hi, Bob!") 11 = Ok (lit "Hi, Bob!")
  <-> Forall (fun c => isalpha latin1_db c = true -> 0 <= c < 128) (lit "Hi, Bob!").
Proof. apply (roundtrip_exact_iff_letters_ascii latin1_db (lit "Hi, Bob!") 11). lia. Defined.

(** X4: whatever [cipher] returns decrypts back: with shifts in 1..25, the
    output of any pass, encrypted and then decrypted, is that output again,
    also when the input held letters outside ASCII. *)
Theorem cipher_output_roundtrips db text a da shift :
  1 <= a <= 25 -> 1 <= shift <= 25 ->
  exists out,
    cipher db __init__ text a da = Ok out
    /\ roundtrip db out shift = Ok out.
Proof.
  intros Ha Hs. eexists. split; [apply cipher_valid, Ha|].
  apply roundtrip_when_letters_are_ascii; [exact Hs|].
  apply Forall_forall. intros o Hin Hoa.
  apply in_map_iff in Hin as (c & <- & _).
  destruct (isalpha db c) eqn:Hc.
  - apply (rotate_alpha_image db _ c Hc).
  - unfold rotate in *. rewrite Hc in *. congruence.
Qed.

Lemma cipher_output_roundtrips_witness :
  exists out,
    cipher latin1_db __init__ [233; 116; 233] 5 false = Ok out
    /\ roundtrip latin1_db out 7 = Ok out.
Proof.
  apply (cipher_output_roundtrips latin1_db [233; 116; 233] 5 false 7); lia.
Defined.

(** X5: with a shift in 1..25, [cipher] returns its input unchanged exactly
    when the input holds no alphabetic character: every letter is moved. *)
Theorem cipher_fixes_exactly_letterless_text db text shift decrypt :
  1 <= shift <= 25 ->
  (cipher db __init__ text shift decrypt = Ok text
   <-> Forall (fun c => isalpha db c = false) text).
Proof.
  intros H. rewrite cipher_valid by exact H.
  assert (Hk : signed shift decrypt mod 26 <> 0).
  { unfold signed. destruct decrypt.
    - replace (- shift) with (26 - shift + (-1) * 26) by lia.
      rewrite Z_mod_plus_full, Z.mod_small; lia.
    - rewrite Z.mod_small; lia. }
  split.
  - intros [= Hmap]. apply map_fixed_iff in Hmap.
    eapply Forall_impl; [|exact Hmap]. cbn beta. intros c Hc.
    destruct (isalpha db c) eqn:Ha; [|reflexivity].
    exfalso. exact (rotate_moves_letters db _ c Ha Hk Hc).
  - intros Hall. f_equal. apply map_fixed_iff.
    eapply Forall_impl; [|exact Hall]. cbn beta. intros c Hc.
    unfold rotate. now rewrite Hc.
Qed.

Lemma cipher_fixes_exactly_letterless_text_witness :
  cipher latin1_db __init__ (lit "12:30 + 4") 9 true = Ok (lit "12:30 + 4")
  <-> Forall (fun c => isalpha latin1_db c = false) (lit "12:30 + 4").
Proof.
  apply (cipher_fixes_exactly_letterless_text latin1_db (lit "12:30 + 4") 9 true). lia.
Defined.

(** C2: which characters pass through.  For a shift in 1..25 and either
    direction, the character at a position of the output is the character
    at that position of the input exactly when [isalpha] answers [False]
    for it; every other character is replaced by an ASCII letter.  [isalpha]
    answers [True] for every letter of the Unicode database, so symbols
    such as the micro sign U+00B5 and characters of scripts without an
    alphabet such as the ideograph U+4F60 do not pass through: they are
    rewritten into ASCII letters. *)
Theorem cipher_rewrites_what_isalpha_accepts db text shift decrypt i c :
  1 <= shift <= 25 ->
  nth_error text i = Some c ->
  exists out o,
    cipher db __init__ text shift decrypt = Ok out
    /\ nth_error out i = Some o
    /\ (o = c <-> isalpha db c = false)
    /\ (isalpha db c = true -> ascii_isalpha o = true).
Proof.
  intros H Hi.
  exists (map (rotate db (signed shift decrypt)) text),
         (rotate db (signed shift decrypt) c).
  assert (Hk : signed shift decrypt mod 26 <> 0).
  { unfold signed. destruct decrypt.
    - replace (- shift) with (26 - shift + (-1) * 26) by lia.
      rewrite Z_mod_plus_full, Z.mod_small; lia.
    - rewrite Z.mod_small; lia. }
  split; [apply cipher_valid, H|].
  split; [rewrite nth_error_map, Hi; reflexivity|].
  split; [split|].
  - intros Heq. destruct (isalpha db c) eqn:Ha; [|reflexivity].
    exfalso. exact (rotate_moves_letters db _ c Ha Hk Heq).
  - intros Ha. unfold rotate. now rewrite Ha.
  - intros Ha.
    pose proof (rotate_alpha_bounds db (signed shift decrypt) c Ha) as Hb.
    cbv zeta in Hb. destruct (isupper db c); ranges.
Qed.

(** In "5 µm 你", encrypted with shift 1, the ideograph at position 5 does
    not pass through: an ASCII letter stands in its place. *)
Lemma cipher_rewrites_what_isalpha_accepts_witness :
  exists out o,
    cipher cjk_db __init__ (u "5 µm 你") 1 false = Ok out
    /\ nth_error out 5%nat = Some o
    /\ o <> 20320
    /\ ascii_isalpha o = true.
Proof.
  destruct (cipher_rewrites_what_isalpha_accepts cjk_db (u "5 µm 你") 1 false
              5%nat 20320)
    as (out & o & Hout & Ho & Hiff & Hletter); [lia | reflexivity |].
  exists out, o. split; [exact Hout|]. split; [exact Ho|]. split.
  - intros Heq. apply Hiff in Heq. discriminate Heq.
  - apply Hletter. reflexivity.
Defined.

(** The digit and the spaces pass through; the micro sign becomes "h" and
    the ideograph "w", and decrypting does not bring them back. *)
Example cipher_micro_sign_and_ideograph :
  cipher cjk_db __init__ (u "5 µm 你") 1 false = Ok (lit "5 hn w")
  /\ cipher cjk_db __init__ (lit "5 hn w") 1 true = Ok (lit "5 gm v")
  /\ cipher latin1_db __init__ [181] 1 false = Ok (lit "h").
Proof. repeat split. Qed.

(** ** The brute-force candidates *)

Lemma dict_get_map_absent {V} (f : Z -> V) (l : list Z) k :
  ~ In k l -> dict_get (map (fun s => (s, f s)) l) k = None.
Proof.
  induction l as [|x l IH]; cbn [In map dict_get]; intros H; [reflexivity|].
  destruct (Z.eqb_spec x k) as [->|Hne]; [tauto|]. apply IH. tauto.
Qed.

Lemma in_range_1_26 s : In s (range 1 26) <-> 1 <= s <= 25.
Proof.
  unfold range. rewrite in_map_iff. split.
  - intros (i & <- & Hi). apply in_seq in Hi. lia.
  - intros H. exists (Z.to_nat (s - 1)). split; [lia|]. apply in_seq. lia.
Qed.

Lemma rotate_same_image db a b c :
  isalpha db c = true -> rotate db a c = rotate db b c -> (a - b) mod 26 = 0.
Proof.
  intros Ha. unfold rotate. rewrite Ha.
  set (base := if isupper db c then 65 else 97). intros Heq.
  pose proof (Z_div_mod_eq_full (c - base + a) 26).
  pose proof (Z_div_mod_eq_full (c - base + b) 26).
  replace (a - b)
    with (((c - base + a) / 26 - (c - base + b) / 26) * 26) by lia.
  apply Z_mod_mult.
Qed.

Lemma shifts_congruent_equal s1 s2 :
  1 <= s1 <= 25 -> 1 <= s2 <= 25 -> (- s1 - - s2) mod 26 = 0 -> s1 = s2.
Proof.
  intros H1 H2 Hm.
  pose proof (Z_div_mod_eq_full (- s1 - - s2) 26). lia.
Qed.

(** X6: [brute_force_decrypt] never raises and returns 25 entries, with keys
    1 to 25 in ascending order; looking up a key in 1..25 gives the text
    decrypted with that key, of the length of the input, and any other key
    is missing. *)
Theorem brute_force_decrypt_candidates db text :
  exists results,
    brute_force_decrypt db __init__ text = Ok results
    /\ List.length results = 25%nat
    /\ dict_keys results
       = [1;2;3;4;5;6;7;8;9;10;11;12;13;14;15;16;17;18;19;20;21;22;23;24;25]
    /\ forall s,
         match dict_get results s with
         | Some candidate =>
             1 <= s <= 25
             /\ decrypt db __init__ text s = Ok candidate
             /\ List.length candidate = List.length text
         | None => ~ (1 <= s <= 25)
         end.
Proof.
  eexists. split; [apply brute_force_decrypt_entries|].
  split; [now rewrite length_map|].
  split; [unfold dict_keys; rewrite map_map; cbn [fst]; rewrite map_id; reflexivity|].
  intros s.
  assert (Hd : 1 <= s <= 25 \/ ~ (1 <= s <= 25)) by lia.
  destruct Hd as [Hs|Hs].
  - rewrite (dict_get_map (fun s => map (rotate db (- s)) text))
      by (apply in_range_1_26, Hs).
    split; [exact Hs|]. split; [|apply length_map].
    unfold decrypt. now rewrite cipher_valid by exact Hs.
  - rewrite (dict_get_map_absent (fun s => map (rotate db (- s)) text))
      by (rewrite in_range_1_26; exact Hs).
    exact Hs.
Qed.

(** X7: when the text holds an alphabetic character, the 25 candidates of
    [brute_force_decrypt] are pairwise different, and none of them is the
    text itself. *)
Theorem brute_force_candidates_distinct db text i c :
  nth_error text i = Some c ->
  isalpha db c = true ->
  exists results,
    brute_force_decrypt db __init__ text = Ok results
    /\ (forall s1 s2, 1 <= s1 <= 25 -> 1 <= s2 <= 25 -> s1 <> s2 ->
          dict_get results s1 <> dict_get results s2)
    /\ (forall s, 1 <= s <= 25 -> dict_get results s <> Some text).
Proof.
  intros Hi Ha. eexists. split; [apply brute_force_decrypt_entries|].
  assert (Hpos : forall (f : char -> char) l, map f text = l ->
                   nth_error l i = Some (f c)).
  { intros f l <-. rewrite nth_error_map, Hi. reflexivity. }
  split.
  - intros s1 s2 H1 H2 Hne.
    rewrite !(dict_get_map (fun s => map (rotate db (- s)) text))
      by (apply in_range_1_26; assumption).
    intros [= Heq]. apply Hne.
    apply (Hpos (rotate db (- s1))) in Heq.
    rewrite nth_error_map, Hi in Heq. cbn in Heq. injection Heq as Heq.
    apply shifts_congruent_equal; [exact H1|exact H2|].
    apply (rotate_same_image db _ _ c Ha). congruence.
  - intros s Hs.
    rewrite (dict_get_map (fun s => map (rotate db (- s)) text))
      by (apply in_range_1_26, Hs).
    intros [= Heq]. apply map_fixed_iff in Heq.
    rewrite Forall_forall in Heq.
    apply (rotate_moves_letters db (- s) c Ha).
    + intros Hm. pose proof (Z_div_mod_eq_full (- s) 26). lia.
    + apply Heq. eapply nth_error_In, Hi.
Qed.

Lemma brute_force_candidates_distinct_witness :
  exists results,
    brute_force_decrypt latin1_db __init__ (lit "1a") = Ok results
    /\ (forall s1 s2, 1 <= s1 <= 25 -> 1 <= s2 <= 25 -> s1 <> s2 ->
          dict_get results s1 <> dict_get results s2)
    /\ (forall s, 1 <= s <= 25 -> dict_get results s <> Some (lit "1a")).
Proof.
  apply (brute_force_candidates_distinct latin1_db (lit "1a") 1 (char_of "a"));
    reflexivity.
Defined.

Lemma brute_force_recovers_ascii_plaintext_witness :
  exists results,
    brute_force_of_encrypted latin1_db (lit "Veni, vidi, vici") 17 = Ok results
    /\ dict_get results 17 = Some (lit "Veni, vidi, vici").
Proof.
  apply (brute_force_recovers_ascii_plaintext latin1_db (lit "Veni, vidi, vici") 17).
  - lia.
  - apply Forall_forall. intros c Hin _.
    assert (Hall : forallb is_ascii (lit "Veni, vidi, vici") = true) by reflexivity.
    rewrite forallb_forall in Hall. specialize (Hall c Hin).
    unfold is_ascii, in_range in Hall. lia.
Defined.

(** ** More on the file helpers *)

(** X8: with a shift outside 1..25 and a readable input file,
    [encrypt_file] and [decrypt_file] print the shift error, return [False]
    and write nothing: the file system is left as it was, whatever the
    output path. *)
Theorem file_helpers_reject_invalid_shift os db input_file shift output_file content w :
  ~ (1 <= shift <= 25) ->
  read_text os (fs w) input_file = Ok content ->
  encrypt_file db __init__ os input_file shift output_file w
  = ({| fs := fs w;
        stdout := stdout w
                  ++ [cross_mark :: lit " Error: Shift must be between 1 and 25"] |},
     Ok false)
  /\ decrypt_file db __init__ os input_file shift output_file w
     = ({| fs := fs w;
           stdout := stdout w
                     ++ [cross_mark :: lit " Error: Shift must be between 1 and 25"] |},
        Ok false).
Proof.
  intros H Hread.
  pose proof (file_helper_steps db os false input_file shift output_file w) as He.
  pose proof (file_helper_steps db os true input_file shift output_file w) as Hd.
  cbn [file_helper] in He, Hd.
  rewrite Hread in He, Hd. rewrite cipher_invalid in He, Hd by exact H.
  split; assumption.
Qed.

Lemma file_helpers_reject_invalid_shift_witness :
  encrypt_file latin1_db __init__ (mem_os posixpath) (lit "notes.txt") 26 None
    {| fs := [(lit "notes.txt", File (lit "abc"))] : FS (mem_os posixpath);
       stdout := [] |}
  = ({| fs := [(lit "notes.txt", File (lit "abc"))] : FS (mem_os posixpath);
        stdout := [cross_mark :: lit " Error: Shift must be between 1 and 25"] |},
     Ok false)
  /\ decrypt_file latin1_db __init__ (mem_os posixpath) (lit "notes.txt") 26 None
       {| fs := [(lit "notes.txt", File (lit "abc"))] : FS (mem_os posixpath);
          stdout := [] |}
     = ({| fs := [(lit "notes.txt", File (lit "abc"))] : FS (mem_os posixpath);
           stdout := [cross_mark :: lit " Error: Shift must be between 1 and 25"] |},
        Ok false).
Proof.
  apply (file_helpers_reject_invalid_shift (mem_os posixpath) latin1_db
           (lit "notes.txt") 26 None (lit "abc")
           {| fs := [(lit "notes.txt", File (lit "abc"))] : FS (mem_os posixpath);
              stdout := [] |});
    [lia | reflexivity].
Defined.







(** ** The shell: how its methods behave *)

Arguments u : simpl never.
Arguments str_mul : simpl never.
Arguments str_of_int : simpl never.













(** *** Reading at a prompt *)

Lemma get_user_input_cases py os prompt (st : session os) :
  CaesarCipherCLI.get_user_input py os prompt st
  = match keyboard st with
    | [] => (shown st [Prompt prompt] [], Throw EOFError)
    | Line s :: keys => (shown st [Prompt prompt] keys, Done (str_strip py s))
    | CtrlC :: keys =>
        (shown st [Prompt prompt; Print goodbye] keys, Throw (SystemExit 0))
    | Undecodable msg :: keys =>
        (shown st [Prompt prompt] keys, Throw (Exc (ValueError msg)))
    end.
Proof.
  unfold CaesarCipherCLI.get_user_input, try_catch, cli_bind, input, shown.
  destruct (keyboard st) as [|[s| |msg] keys]; cbn; try reflexivity.
  rewrite <- app_assoc. reflexivity.
Qed.

Lemma get_valid_shift_turn_cases py os prompt (st : session os) :
  CaesarCipherCLI.get_valid_shift_turn py os prompt st
  = match keyboard st with
    | [] => (shown st [Prompt prompt] [], Throw EOFError)
    | Line s :: keys =>
        match int_parse py s with
        | Some n =>
            if (1 <=? n) && (n <=? 25)
            then (shown st [Prompt prompt] keys, Done (Some n))
            else (shown st [Prompt prompt; Print (rejection py s)] keys, Done None)
        | None => (shown st [Prompt prompt; Print (rejection py s)] keys, Done None)
        end
    | CtrlC :: keys =>
        (shown st [Prompt prompt; Print goodbye] keys, Throw (SystemExit 0))
    | Undecodable msg :: keys =>
        (shown st [Prompt prompt; Print (u "❌ Please enter a valid number.")] keys,
         Done None)
    end.
Proof.
  unfold CaesarCipherCLI.get_valid_shift_turn, try_catch, cli_bind, input, shown,
    rejection.
  destruct (keyboard st) as [|[s| |msg] keys]; cbn; try reflexivity.
  - destruct (int_parse py s) as [n|]; cbn.
    + destruct ((1 <=? n) && (n <=? 25)); cbn; [reflexivity|].
      rewrite <- app_assoc. reflexivity.
    + rewrite <- app_assoc. reflexivity.
  - rewrite <- app_assoc. reflexivity.
  - rewrite <- app_assoc. reflexivity.
Qed.


Lemma ends_with_two scr e1 e2 : ends_with (scr ++ [e1; e2]) e2.
Proof. exists (scr ++ [e1]). now rewrite <- app_assoc. Qed.


Lemma get_valid_shift_loop_spec py os prompt : forall fuel (st : session os),
  (List.length (keyboard st) < fuel)%nat ->
  match CaesarCipherCLI.get_valid_shift_loop py os fuel prompt st with
  | (st', Done n) =>
      (exists used,
         keyboard st = used ++ keyboard st' /\ (1 <= List.length used)%nat)
      /\ 1 <= n <= 25
      /\ disk st' = disk st /\ running st' = running st
  | (st', Throw s) =>
      (exists used, keyboard st = used ++ keyboard st')
      /\ ((s = SystemExit 0 /\ ends_with (screen st') (Print goodbye))
          \/ (s = EOFError /\ keyboard st' = []))
      /\ disk st' = disk st /\ running st' = running st
  | (st', OutOfFuel) => False
  end.
Proof.
  induction fuel as [|fuel IH]; intros st Hfuel; [lia|].
  cbn [CaesarCipherCLI.get_valid_shift_loop]. unfold cli_bind.
  rewrite get_valid_shift_turn_cases.
  destruct (keyboard st) as [|k keys] eqn:Hk; cbn [List.length] in *.
  - cbn. split; [exists []; reflexivity|].
    split; [right; split; reflexivity|]. split; reflexivity.
  - assert (Hnext : forall ev,
      match CaesarCipherCLI.get_valid_shift_loop py os fuel prompt (shown st ev keys) with
      | (st', Done n) =>
          (exists used,
             k :: keys = used ++ keyboard st' /\ (1 <= List.length used)%nat)
          /\ 1 <= n <= 25
          /\ disk st' = disk st /\ running st' = running st
      | (st', Throw s0) =>
          (exists used, k :: keys = used ++ keyboard st')
          /\ ((s0 = SystemExit 0 /\ ends_with (screen st') (Print goodbye))
              \/ (s0 = EOFError /\ keyboard st' = []))
          /\ disk st' = disk st /\ running st' = running st
      | (st', OutOfFuel) => False
      end).
    { intros ev. specialize (IH (shown st ev keys)). cbn [shown keyboard disk running] in IH.
      specialize (IH ltac:(lia)).
      destruct (CaesarCipherCLI.get_valid_shift_loop py os fuel prompt (shown st ev keys))
        as [st' [n|s0|]]; [| |exact IH].
      - destruct IH as ((used & Hu & Hl) & H2). split; [|exact H2].
        exists (k :: used). rewrite Hu. split; [reflexivity|cbn; lia].
      - destruct IH as ((used & Hu) & H2). split; [|exact H2].
        exists (k :: used). rewrite Hu. reflexivity. }
    destruct k as [s| |msg].
    + destruct (int_parse py s) as [n|]; [|apply Hnext].
      destruct ((1 <=? n) && (n <=? 25)) eqn:E; [|apply Hnext].
      cbn. split; [exists [Line s]; split; [reflexivity|cbn; lia]|].
      split; [lia|]. split; reflexivity.
    + cbn. split; [exists [CtrlC]; reflexivity|].
      split; [left; split; [reflexivity|apply ends_with_two]|].
      split; reflexivity.
    + apply Hnext.
Qed.


(** *** The handlers of the menu *)














(** ** The shell: what a user sees *)

Lemma shown_shown {os} (st : session os) ev1 keys1 ev2 keys2 :
  shown (shown st ev1 keys1) ev2 keys2 = shown st (ev1 ++ ev2) keys2.
Proof. unfold shown. cbn. now rewrite app_assoc. Qed.

(** X11: [get_valid_shift] returns only shifts in 1..25, whatever is typed;
    otherwise it ends by the exit with status 0 after Ctrl-C, having printed
    the goodbye line, or by [EOFError] when the keyboard input is used up.
    It never loops for ever and leaves the file system alone. *)
Theorem get_valid_shift_returns_shift_in_range py os prompt (st : session os) :
  match CaesarCipherCLI.get_valid_shift py os prompt st with
  | (st', Done shift) => 1 <= shift <= 25 /\ disk st' = disk st
  | (st', Throw s) =>
      ((s = SystemExit 0 /\ ends_with (screen st') (Print goodbye))
       \/ (s = EOFError /\ keyboard st' = []))
      /\ disk st' = disk st
  | (st', OutOfFuel) => False
  end.
Proof.
  unfold CaesarCipherCLI.get_valid_shift.
  pose proof (get_valid_shift_loop_spec py os prompt
                (S (List.length (keyboard st))) st ltac:(lia)) as H.
  destruct (CaesarCipherCLI.get_valid_shift_loop py os
              (S (List.length (keyboard st))) prompt st) as [st' [n|s|]];
    [| |exact H]; destruct H as (_ & H1 & H2 & _); split; assumption.
Qed.

Lemma get_valid_shift_loop_skips py os prompt good n keys : forall bad fuel (st : session os),
  keyboard st = map Line bad ++ Line good :: keys ->
  Forall (rejected py) bad ->
  int_parse py good = Some n ->
  1 <= n <= 25 ->
  (List.length bad < fuel)%nat ->
  CaesarCipherCLI.get_valid_shift_loop py os fuel prompt st
  = (shown st
       (flat_map (fun line => [Prompt prompt; Print (rejection py line)]) bad
        ++ [Prompt prompt])
       keys,
     Done n).
Proof.
  induction bad as [|b bad IH]; intros fuel st Hk Hbad Hgood Hn Hfuel;
    (destruct fuel as [|fuel]; [cbn in Hfuel; lia|]);
    cbn [CaesarCipherCLI.get_valid_shift_loop]; unfold cli_bind;
    rewrite get_valid_shift_turn_cases, Hk; cbn [map app flat_map].
  - rewrite Hgood. replace ((1 <=? n) && (n <=? 25)) with true by lia.
    reflexivity.
  - inversion Hbad as [|? ? Hb Hbad']; subst.
    assert (Hgo : CaesarCipherCLI.get_valid_shift_loop py os fuel prompt
                    (shown st [Prompt prompt; Print (rejection py b)]
                       (map Line bad ++ Line good :: keys))
                  = (shown st
                       ((Prompt prompt :: Print (rejection py b) :: nil)
                        ++ flat_map (fun line => [Prompt prompt; Print (rejection py line)]) bad
                        ++ [Prompt prompt])
                       keys,
                     Done n)).
    { rewrite (IH fuel); [|reflexivity|assumption..|cbn in Hfuel; lia].
      now rewrite shown_shown. }
    unfold rejected in Hb.
    destruct (int_parse py b) as [m|] eqn:Hm.
    + replace ((1 <=? m) && (m <=? 25)) with false by lia. exact Hgo.
    + exact Hgo.
Qed.

(** X12: [get_valid_shift] asks again after every line it does not accept:
    when the user types lines that are no integers or integers outside
    1..25 and then a line that [int] reads as a shift in 1..25, it returns
    that shift, having shown the prompt before each line and one error line
    after each rejected one, and leaves the keys that follow unread. *)
Theorem get_valid_shift_asks_again py os prompt bad good n keys (st : session os) :
  keyboard st = map Line bad ++ Line good :: keys ->
  Forall (rejected py) bad ->
  int_parse py good = Some n ->
  1 <= n <= 25 ->
  CaesarCipherCLI.get_valid_shift py os prompt st
  = (shown st
       (flat_map (fun line => [Prompt prompt; Print (rejection py line)]) bad
        ++ [Prompt prompt])
       keys,
     Done n).
Proof.
  intros Hk Hbad Hgood Hn. unfold CaesarCipherCLI.get_valid_shift.
  apply (get_valid_shift_loop_skips py os prompt good n keys bad); try assumption.
  rewrite Hk, length_app, length_map. cbn. lia.
Qed.

Lemma get_valid_shift_asks_again_witness :
  CaesarCipherCLI.get_valid_shift latin1_builtins (mem_os posixpath)
    CaesarCipherCLI.shift_prompt
    {| disk := [] : FS (mem_os posixpath); screen := [];
       keyboard := map Line [lit "three"; lit "26"; lit "0"] ++ Line (lit " 3 ") :: [CtrlC];
       running := true |}
  = (shown
       {| disk := [] : FS (mem_os posixpath); screen := [];
          keyboard := map Line [lit "three"; lit "26"; lit "0"]
                      ++ Line (lit " 3 ") :: [CtrlC];
          running := true |}
       (flat_map (fun line => [Prompt CaesarCipherCLI.shift_prompt;
                               Print (rejection latin1_builtins line)])
          [lit "three"; lit "26"; lit "0"]
        ++ [Prompt CaesarCipherCLI.shift_prompt])
       [CtrlC],
     Done 3).
Proof.
  apply (get_valid_shift_asks_again latin1_builtins (mem_os posixpath)
           CaesarCipherCLI.shift_prompt [lit "three"; lit "26"; lit "0"] (lit " 3 ") 3
           [CtrlC]).
  - reflexivity.
  - repeat (apply Forall_cons;
              [unfold rejected;
               match goal with
               | |- match ?x with _ => _ end =>
                   let v := eval vm_compute in x in change x with v
               end; cbv iota; first [exact I | lia] |]).
    apply Forall_nil.
  - reflexivity.
  - lia.
Defined.


(** A first line that is not valid UTF-8: [input] raises at the menu prompt,
    nothing catches the [UnicodeDecodeError] before [main], which prints
    the unexpected-error line and exits with status 1. *)
Example main_undecodable_line :
  main latin1_db latin1_builtins (mem_os posixpath)
    {| disk := [] : FS (mem_os posixpath); screen := [];
       keyboard := [Undecodable
                      (lit "'utf-8' codec can't decode byte 0xff in position 0: invalid start byte");
                    Line (lit "8")];
       running := false |}
  = ({| disk := [] : FS (mem_os posixpath);
        screen :=
          screen (fst (CaesarCipherCLI.print_menu (mem_os posixpath)
                         (fst (CaesarCipherCLI.print_header (mem_os posixpath)
                                 {| disk := [] : FS (mem_os posixpath); screen := [];
                                    keyboard := []; running := false |}))))
          ++ [ Prompt (nl ++ u "Enter your choice (1-8): ");
               Print (nl ++ u "❌ An unexpected error occurred: "
                         ++ lit "'utf-8' codec can't decode byte 0xff in position 0: invalid start byte") ];
        keyboard := [Line (lit "8")];
        running := true |},
     Throw (SystemExit 1)).
Proof. vm_compute. reflexivity. Qed.

(** [int] on Latin-1 text: white space and a sign are allowed around the
    digits, U+001F is no white space for it, and 4301 digits are too many. *)
Example latin1_int_examples :
  latin1_int (lit " 3 ") = Some 3
  /\ latin1_int (lit "-1_0") = Some (-10)
  /\ latin1_int (lit "three") = None
  /\ latin1_int (31 :: lit "10") = None
  /\ latin1_strip (31 :: lit "10") = lit "10"
  /\ latin1_int (repeat 49 4301) = None
  /\ (exists n, latin1_int (repeat 49 4300) = Some n).
Proof.
  repeat (split; [vm_compute; reflexivity|]).
  eexists. vm_compute. reflexivity.
Qed.

Lemma print_lines_shown {os} lines (st : session os) :
  print_lines lines st = (shown st (map Print lines) (keyboard st), Done tt).
Proof.
  revert st. induction lines as [|l lines IH]; intros st; cbn [print_lines map].
  - unfold cli_ret, shown. rewrite app_nil_r. now destruct st.
  - unfold cli_bind, cli_print. rewrite IH. unfold shown. cbn.
    now rewrite <- app_assoc.
Qed.

Lemma cli_for_prints {os A} (l : list A) (body : A -> cli os unit) (f : A -> str)
    (st : session os) :
  (forall x, body x = cli_print (f x)) ->
  cli_for l body st = (shown st (map (fun x => Print (f x)) l) (keyboard st), Done tt).
Proof.
  intros Hb. revert st. induction l as [|x l IH]; intros st; cbn [cli_for map].
  - unfold cli_ret, shown. rewrite app_nil_r. now destruct st.
  - unfold cli_bind. rewrite Hb. unfold cli_print. rewrite IH. unfold shown. cbn.
    now rewrite <- app_assoc.
Qed.

Lemma get_valid_shift_accepts py os prompt line n keys (st : session os) :
  keyboard st = Line line :: keys ->
  int_parse py line = Some n ->
  1 <= n <= 25 ->
  CaesarCipherCLI.get_valid_shift py os prompt st
  = (shown st [Prompt prompt] keys, Done n).
Proof.
  intros Hk Hl Hn. unfold CaesarCipherCLI.get_valid_shift.
  apply (get_valid_shift_loop_skips py os prompt line n keys []);
    [exact Hk|constructor|exact Hl|exact Hn|cbn; lia].
Qed.

Ltac input_line Hk Hs :=
  rewrite get_user_input_cases; cbn [keyboard shown disk screen running];
  rewrite Hk; cbn [keyboard shown disk screen running]; rewrite ?Hs.

Ltac screens :=
  unfold shown; cbn [keyboard shown disk screen running];
  rewrite <- ?app_assoc; cbn [app]; reflexivity.

(** X14: the five handlers that ask for a message or a file path refuse an
    empty answer: when the line typed is empty once stripped, each prints
    its complaint and returns at once, having read that one line only; no
    shift is asked for and the file system is not touched. *)
Theorem handlers_refuse_empty_input db py os line keys (st : session os) :
  keyboard st = Line line :: keys ->
  str_strip py line = [] ->
  CaesarCipherCLI.encrypt_message db py os st
  = (shown st
       [ Print (nl ++ str_mul (u "=") 40);
         Print (u "🔒 ENCRYPT MESSAGE");
         Print (str_mul (u "=") 40);
         Prompt (u "Enter message to encrypt: ");
         Print (u "❌ Message cannot be empty.") ]
       keys, Done tt)
  /\ CaesarCipherCLI.decrypt_message db py os st
     = (shown st
          [ Print (nl ++ str_mul (u "=") 40);
            Print (u "🔓 DECRYPT MESSAGE");
            Print (str_mul (u "=") 40);
            Prompt (u "Enter message to decrypt: ");
            Print (u "❌ Message cannot be empty.") ]
          keys, Done tt)
  /\ CaesarCipherCLI.brute_force_decrypt db py os st
     = (shown st
          [ Print (nl ++ str_mul (u "=") 40);
            Print (u "🔍 BRUTE FORCE DECRYPT");
            Print (str_mul (u "=") 40);
            Print (u "This will try all possible shift values (1-25)");
            Prompt (u "Enter encrypted message: ");
            Print (u "❌ Message cannot be empty.") ]
          keys, Done tt)
  /\ CaesarCipherCLI.encrypt_file_menu db py os st
     = (shown st
          [ Print (nl ++ str_mul (u "=") 40);
            Print (u "📁 ENCRYPT FILE");
            Print (str_mul (u "=") 40);
            Prompt (u "Enter input file path: ");
            Print (u "❌ File path cannot be empty.") ]
          keys, Done tt)
  /\ CaesarCipherCLI.decrypt_file_menu db py os st
     = (shown st
          [ Print (nl ++ str_mul (u "=") 40);
            Print (u "📂 DECRYPT FILE");
            Print (str_mul (u "=") 40);
            Prompt (u "Enter input file path: ");
            Print (u "❌ File path cannot be empty.") ]
          keys, Done tt).
Proof.
  intros Hk Hs.
  repeat split;
    unfold CaesarCipherCLI.encrypt_message, CaesarCipherCLI.decrypt_message,
      CaesarCipherCLI.brute_force_decrypt, CaesarCipherCLI.encrypt_file_menu,
      CaesarCipherCLI.decrypt_file_menu, cli_bind, cli_print;
    input_line Hk Hs; cbn [is_empty]; screens.
Qed.

Lemma handlers_refuse_empty_input_witness :
  CaesarCipherCLI.encrypt_file_menu latin1_db latin1_builtins (mem_os posixpath)
    {| disk := [] : FS (mem_os posixpath); screen := [];
       keyboard := [Line (lit "   "); Line (lit "3")]; running := true |}
  = (shown
       {| disk := [] : FS (mem_os posixpath); screen := [];
          keyboard := [Line (lit "   "); Line (lit "3")]; running := true |}
       [ Print (nl ++ str_mul (u "=") 40);
         Print (u "📁 ENCRYPT FILE");
         Print (str_mul (u "=") 40);
         Prompt (u "Enter input file path: ");
         Print (u "❌ File path cannot be empty.") ]
       [Line (lit "3")], Done tt).
Proof.
  apply (handlers_refuse_empty_input latin1_db latin1_builtins (mem_os posixpath)
           (lit "   ") [Line (lit "3")]
           {| disk := [] : FS (mem_os posixpath); screen := [];
              keyboard := [Line (lit "   "); Line (lit "3")]; running := true |});
    reflexivity.
Defined.

(** X15: [encrypt_message] and [decrypt_message] transform the message as
    typed but for the white space stripped at its ends: given a line that
    is not empty once stripped and then a line [int] reads as a shift in
    1..25, they print the stripped message, its encryption or decryption
    by [cipher] and the shift, and return; the failure line of their
    [except] clause is not printed. *)
Theorem message_handlers_show_transformed_text db py os line answer message shift keys
    (st : session os) :
  keyboard st = Line line :: Line answer :: keys ->
  str_strip py line = message ->
  message <> [] ->
  int_parse py answer = Some shift ->
  1 <= shift <= 25 ->
  exists encrypted decrypted,
    encrypt db __init__ message shift = Ok encrypted
    /\ decrypt db __init__ message shift = Ok decrypted
    /\ CaesarCipherCLI.encrypt_message db py os st
       = (shown st
            [ Print (nl ++ str_mul (u "=") 40);
              Print (u "🔒 ENCRYPT MESSAGE");
              Print (str_mul (u "=") 40);
              Prompt (u "Enter message to encrypt: ");
              Prompt (u "Enter shift value (1-25): ");
              Print (nl ++ u "✅ Encryption successful!");
              Print (u "📝 Original:  '" ++ message ++ u "'");
              Print (u "🔒 Encrypted: '" ++ encrypted ++ u "'");
              Print (u "🔑 Shift used: " ++ str_of_int shift);
              Print (u "💡 Tip: Use shift value " ++ str_of_int shift
                       ++ u " to decrypt this message") ]
            keys, Done tt)
    /\ CaesarCipherCLI.decrypt_message db py os st
       = (shown st
            [ Print (nl ++ str_mul (u "=") 40);
              Print (u "🔓 DECRYPT MESSAGE");
              Print (str_mul (u "=") 40);
              Prompt (u "Enter message to decrypt: ");
              Prompt (u "Enter shift value (1-25): ");
              Print (nl ++ u "✅ Decryption successful!");
              Print (u "🔒 Encrypted: '" ++ message ++ u "'");
              Print (u "📝 Decrypted: '" ++ decrypted ++ u "'");
              Print (u "🔑 Shift used: " ++ str_of_int shift) ]
            keys, Done tt).
Proof.
  intros Hk Hs Hne Hi Hv.
  assert (Hem : is_empty message = false) by (destruct message; [congruence|reflexivity]).
  do 2 eexists.
  split; [apply cipher_valid, Hv|]. split; [apply cipher_valid, Hv|].
  split.
  - unfold CaesarCipherCLI.encrypt_message, cli_bind, cli_print.
    input_line Hk Hs. rewrite Hem.
    rewrite (get_valid_shift_accepts py os _ answer shift keys) by (try reflexivity; assumption).
    unfold except_Exception, try_catch, cli_bind, cli_print, cli_result,
      CaesarCipherCLI.cipher, encrypt.
    rewrite cipher_valid by exact Hv.
    unfold CaesarCipherCLI.shift_prompt. screens.
  - unfold CaesarCipherCLI.decrypt_message, cli_bind, cli_print.
    input_line Hk Hs. rewrite Hem.
    rewrite (get_valid_shift_accepts py os _ answer shift keys) by (try reflexivity; assumption).
    unfold except_Exception, try_catch, cli_bind, cli_print, cli_result,
      CaesarCipherCLI.cipher, decrypt.
    rewrite cipher_valid by exact Hv.
    unfold CaesarCipherCLI.shift_prompt. screens.
Qed.

Lemma message_handlers_show_transformed_text_witness :
  exists encrypted decrypted,
    encrypt latin1_db __init__ (lit "Hi") 3 = Ok encrypted
    /\ decrypt latin1_db __init__ (lit "Hi") 3 = Ok decrypted
    /\ CaesarCipherCLI.encrypt_message latin1_db latin1_builtins (mem_os posixpath)
         {| disk := [] : FS (mem_os posixpath); screen := [];
            keyboard := [Line (lit " Hi "); Line (lit "3")]; running := true |}
       = (shown
            {| disk := [] : FS (mem_os posixpath); screen := [];
               keyboard := [Line (lit " Hi "); Line (lit "3")]; running := true |}
            [ Print (nl ++ str_mul (u "=") 40);
              Print (u "🔒 ENCRYPT MESSAGE");
              Print (str_mul (u "=") 40);
              Prompt (u "Enter message to encrypt: ");
              Prompt (u "Enter shift value (1-25): ");
              Print (nl ++ u "✅ Encryption successful!");
              Print (u "📝 Original:  '" ++ lit "Hi" ++ u "'");
              Print (u "🔒 Encrypted: '" ++ encrypted ++ u "'");
              Print (u "🔑 Shift used: " ++ str_of_int 3);
              Print (u "💡 Tip: Use shift value " ++ str_of_int 3
                       ++ u " to decrypt this message") ]
            [], Done tt)
    /\ CaesarCipherCLI.decrypt_message latin1_db latin1_builtins (mem_os posixpath)
         {| disk := [] : FS (mem_os posixpath); screen := [];
            keyboard := [Line (lit " Hi "); Line (lit "3")]; running := true |}
       = (shown
            {| disk := [] : FS (mem_os posixpath); screen := [];
               keyboard := [Line (lit " Hi "); Line (lit "3")]; running := true |}
            [ Print (nl ++ str_mul (u "=") 40);
              Print (u "🔓 DECRYPT MESSAGE");
              Print (str_mul (u "=") 40);
              Prompt (u "Enter message to decrypt: ");
              Prompt (u "Enter shift value (1-25): ");
              Print (nl ++ u "✅ Decryption successful!");
              Print (u "🔒 Encrypted: '" ++ lit "Hi" ++ u "'");
              Print (u "📝 Decrypted: '" ++ decrypted ++ u "'");
              Print (u "🔑 Shift used: " ++ str_of_int 3) ]
            [], Done tt).
Proof.
  apply (message_handlers_show_transformed_text latin1_db latin1_builtins
           (mem_os posixpath) (lit " Hi ") (lit "3") (lit "Hi") 3 []
           {| disk := [] : FS (mem_os posixpath); screen := [];
              keyboard := [Line (lit " Hi "); Line (lit "3")]; running := true |});
    [reflexivity | reflexivity | discriminate | reflexivity | lia].
Defined.

(** X16: the brute-force handler prints one line for each shift from 1 to
    25, in ascending order, each with the shift in a field of width two and
    the stripped message decrypted with that shift, and then returns. *)
Theorem shell_brute_force_prints_25_candidates db py os line message keys
    (st : session os) :
  keyboard st = Line line :: keys ->
  str_strip py line = message ->
  message <> [] ->
  exists candidate : Z -> str,
    (forall shift, 1 <= shift <= 25 ->
       decrypt db __init__ message shift = Ok (candidate shift))
    /\ CaesarCipherCLI.brute_force_decrypt db py os st
       = (shown st
            ([ Print (nl ++ str_mul (u "=") 40);
               Print (u "🔍 BRUTE FORCE DECRYPT");
               Print (str_mul (u "=") 40);
               Print (u "This will try all possible shift values (1-25)");
               Prompt (u "Enter encrypted message: ");
               Print (nl ++ u "🔍 Trying all shifts for: '" ++ message ++ u "'");
               Print (str_mul (u "-") 60) ]
             ++ map (fun shift =>
                       Print (u "Shift " ++ format_2d shift ++ u ": " ++ candidate shift))
                  [1;2;3;4;5;6;7;8;9;10;11;12;13;14;15;16;17;18;19;20;21;22;23;24;25]
             ++ [ Print (nl ++ u "💡 Look for the result that makes the most sense!") ])
            keys, Done tt).
Proof.
  intros Hk Hs Hne.
  assert (Hem : is_empty message = false) by (destruct message; [congruence|reflexivity]).
  exists (fun shift => map (rotate db (- shift)) message).
  split; [intros shift Hv; apply cipher_valid, Hv|].
  unfold CaesarCipherCLI.brute_force_decrypt, cli_bind, cli_print.
  input_line Hk Hs. rewrite Hem.
  unfold cli_result, CaesarCipherCLI.cipher. rewrite brute_force_decrypt_entries.
  rewrite (cli_for_prints _ _
             (fun p : Z * str => u "Shift " ++ format_2d (fst p) ++ u ": " ++ snd p))
    by (intros [shift decrypted]; reflexivity).
  rewrite map_map. cbn [fst snd].
  change (range 1 26)
    with [1;2;3;4;5;6;7;8;9;10;11;12;13;14;15;16;17;18;19;20;21;22;23;24;25].
  unfold shown. cbn [keyboard shown disk screen running].
  rewrite <- !app_assoc. reflexivity.
Qed.

Lemma shell_brute_force_prints_25_candidates_witness :
  exists candidate : Z -> str,
    (forall shift, 1 <= shift <= 25 ->
       decrypt latin1_db __init__ (lit "Khoor") shift = Ok (candidate shift))
    /\ CaesarCipherCLI.brute_force_decrypt latin1_db latin1_builtins (mem_os posixpath)
         {| disk := [] : FS (mem_os posixpath); screen := [];
            keyboard := [Line (lit "Khoor")]; running := true |}
       = (shown
            {| disk := [] : FS (mem_os posixpath); screen := [];
               keyboard := [Line (lit "Khoor")]; running := true |}
            ([ Print (nl ++ str_mul (u "=") 40);
               Print (u "🔍 BRUTE FORCE DECRYPT");
               Print (str_mul (u "=") 40);
               Print (u "This will try all possible shift values (1-25)");
               Prompt (u "Enter encrypted message: ");
               Print (nl ++ u "🔍 Trying all shifts for: '" ++ lit "Khoor" ++ u "'");
               Print (str_mul (u "-") 60) ]
             ++ map (fun shift =>
                       Print (u "Shift " ++ format_2d shift ++ u ": " ++ candidate shift))
                  [1;2;3;4;5;6;7;8;9;10;11;12;13;14;15;16;17;18;19;20;21;22;23;24;25]
             ++ [ Print (nl ++ u "💡 Look for the result that makes the most sense!") ])
            [], Done tt).
Proof.
  apply (shell_brute_force_prints_25_candidates latin1_db latin1_builtins
           (mem_os posixpath) (lit "Khoor") (lit "Khoor") []
           {| disk := [] : FS (mem_os posixpath); screen := [];
              keyboard := [Line (lit "Khoor")]; running := true |});
    [reflexivity | reflexivity | discriminate].
Defined.

Ltac next_line Hs :=
  rewrite get_user_input_cases; cbn [keyboard shown disk screen running];
  rewrite ?Hs.

Lemma encrypt_file_as_helper db os :
  encrypt_file db CaesarCipherCLI.cipher os = file_helper db os false.
Proof. reflexivity. Qed.

Lemma decrypt_file_as_helper db os :
  decrypt_file db CaesarCipherCLI.cipher os = file_helper db os true.
Proof. reflexivity. Qed.

(** X17: when a file menu succeeds, the path it prints after "Output saved
    to" is the path the file helper wrote to, given or derived: given a
    file path, a shift in 1..25 and an output path that may be empty, with
    the input readable and the output written without error, the menu
    leaves the file system as that write made it, prints the success
    lines, and returns. *)
Theorem file_menus_print_written_path db py os (decrypt : bool)
    line answer reply input_file shift out content text fs' keys (st : session os) :
  keyboard st = Line line :: Line answer :: Line reply :: keys ->
  str_strip py line = input_file ->
  input_file <> [] ->
  int_parse py answer = Some shift ->
  1 <= shift <= 25 ->
  str_strip py reply = out ->
  read_text os (disk st) input_file = Ok content ->
  cipher db __init__ content shift decrypt = Ok text ->
  write_text os (disk st)
    (output_path os decrypt input_file (if is_empty out then None else Some out)) text
  = (fs', Ok tt) ->
  (if decrypt then CaesarCipherCLI.decrypt_file_menu db py os
   else CaesarCipherCLI.encrypt_file_menu db py os) st
  = ({| disk := fs';
        screen :=
          screen st
          ++ [ Print (nl ++ str_mul (u "=") 40);
               Print (if decrypt then u "📂 DECRYPT FILE" else u "📁 ENCRYPT FILE");
               Print (str_mul (u "=") 40);
               Prompt (u "Enter input file path: ");
               Prompt (u "Enter shift value (1-25): ");
               Prompt (u "Enter output file path (or press Enter for auto-naming): ");
               Print (nl ++ (if decrypt then u "🔄 Decrypting file..."
                             else u "🔄 Encrypting file..."));
               Print (if decrypt then u "✅ File decrypted successfully!"
                      else u "✅ File encrypted successfully!");
               Print (u "📁 Output saved to: "
                        ++ output_path os decrypt input_file
                             (if is_empty out then None else Some out));
               Print (u "🔑 Shift used: " ++ str_of_int shift) ];
        keyboard := keys;
        running := running st |},
     Done tt).
Proof.
  intros Hk Hs Hne Hi Hv Hr Hread Hcipher Hwrite.
  assert (Hem : is_empty input_file = false) by (destruct input_file; [congruence|reflexivity]).
  destruct decrypt;
    unfold CaesarCipherCLI.decrypt_file_menu, CaesarCipherCLI.encrypt_file_menu,
      cli_bind, cli_print;
    input_line Hk Hs; rewrite Hem;
    rewrite (get_valid_shift_accepts py os _ answer shift (Line reply :: keys))
      by (try reflexivity; assumption);
    next_line Hr; cbv zeta; unfold cli_io;
    cbn [keyboard shown disk screen running];
    rewrite ?encrypt_file_as_helper, ?decrypt_file_as_helper, file_helper_steps;
    cbn [fs stdout]; rewrite Hread, Hcipher, Hwrite;
    cbn [fs stdout map keyboard shown disk screen running];
    unfold CaesarCipherCLI.shift_prompt, output_path, derived_path;
    destruct (is_empty out);
    cbn [keyboard shown disk screen running];
    rewrite <- ?app_assoc; reflexivity.
Qed.

Lemma file_menus_print_written_path_witness :
  CaesarCipherCLI.encrypt_file_menu latin1_db latin1_builtins (mem_os posixpath)
    {| disk := [(lit "notes.txt", File (lit "Hi!"))] : FS (mem_os posixpath);
       screen := [];
       keyboard := [Line (lit "notes.txt"); Line (lit "3"); Line (lit "")];
       running := true |}
  = ({| disk := [(lit "notes_encrypted.txt", File (lit "Kl!"));
                 (lit "notes.txt", File (lit "Hi!"))] : FS (mem_os posixpath);
        screen :=
          []
          ++ [ Print (nl ++ str_mul (u "=") 40);
               Print (u "📁 ENCRYPT FILE");
               Print (str_mul (u "=") 40);
               Prompt (u "Enter input file path: ");
               Prompt (u "Enter shift value (1-25): ");
               Prompt (u "Enter output file path (or press Enter for auto-naming): ");
               Print (nl ++ u "🔄 Encrypting file...");
               Print (u "✅ File encrypted successfully!");
               Print (u "📁 Output saved to: "
                        ++ output_path (mem_os posixpath) false (lit "notes.txt")
                             (if is_empty (lit "") then None else Some (lit "")));
               Print (u "🔑 Shift used: " ++ str_of_int 3) ];
        keyboard := [];
        running := true |},
     Done tt).
Proof.
  apply (file_menus_print_written_path latin1_db latin1_builtins (mem_os posixpath)
           false (lit "notes.txt") (lit "3") (lit "") (lit "notes.txt") 3 (lit "")
           (lit "Hi!") (lit "Kl!")
           ([(lit "notes_encrypted.txt", File (lit "Kl!"));
             (lit "notes.txt", File (lit "Hi!"))] : FS (mem_os posixpath))
           []
           {| disk := [(lit "notes.txt", File (lit "Hi!"))] : FS (mem_os posixpath);
              screen := [];
              keyboard := [Line (lit "notes.txt"); Line (lit "3"); Line (lit "")];
              running := true |});
    try reflexivity; [discriminate | lia].
Defined.

(** X18: when the input file cannot be read, a file menu prints the error
    line of the file helper and nothing after it: no success line, no output
    path; the file system is left as it was and the menu returns. *)
Theorem file_menus_stop_after_read_error db py os (decrypt : bool)
    line answer reply input_file shift e keys (st : session os) :
  keyboard st = Line line :: Line answer :: Line reply :: keys ->
  str_strip py line = input_file ->
  input_file <> [] ->
  int_parse py answer = Some shift ->
  1 <= shift <= 25 ->
  read_text os (disk st) input_file = Raise e ->
  is_Exception e = true ->
  (if decrypt then CaesarCipherCLI.decrypt_file_menu db py os
   else CaesarCipherCLI.encrypt_file_menu db py os) st
  = (shown st
       [ Print (nl ++ str_mul (u "=") 40);
         Print (if decrypt then u "📂 DECRYPT FILE" else u "📁 ENCRYPT FILE");
         Print (str_mul (u "=") 40);
         Prompt (u "Enter input file path: ");
         Prompt (u "Enter shift value (1-25): ");
         Prompt (u "Enter output file path (or press Enter for auto-naming): ");
         Print (nl ++ (if decrypt then u "🔄 Decrypting file..."
                       else u "🔄 Encrypting file..."));
         Print (error_line input_file e) ]
       keys,
     Done tt).
Proof.
  intros Hk Hs Hne Hi Hv Hread He.
  assert (Hem : is_empty input_file = false) by (destruct input_file; [congruence|reflexivity]).
  destruct decrypt;
    unfold CaesarCipherCLI.decrypt_file_menu, CaesarCipherCLI.encrypt_file_menu,
      cli_bind, cli_print;
    input_line Hk Hs; rewrite Hem;
    rewrite (get_valid_shift_accepts py os _ answer shift (Line reply :: keys))
      by (try reflexivity; assumption);
    next_line Hs; cbv zeta; unfold cli_io;
    cbn [keyboard shown disk screen running];
    rewrite ?encrypt_file_as_helper, ?decrypt_file_as_helper, file_helper_steps;
    cbn [fs stdout]; rewrite Hread; unfold recover; rewrite He;
    cbn [fs stdout map app keyboard shown disk screen running cli_ret];
    unfold CaesarCipherCLI.shift_prompt; screens.
Qed.

Lemma file_menus_stop_after_read_error_witness :
  CaesarCipherCLI.decrypt_file_menu latin1_db latin1_builtins (mem_os posixpath)
    {| disk := [] : FS (mem_os posixpath); screen := [];
       keyboard := [Line (lit "gone.txt"); Line (lit "3"); Line (lit "")];
       running := true |}
  = (shown
       {| disk := [] : FS (mem_os posixpath); screen := [];
          keyboard := [Line (lit "gone.txt"); Line (lit "3"); Line (lit "")];
          running := true |}
       [ Print (nl ++ str_mul (u "=") 40);
         Print (u "📂 DECRYPT FILE");
         Print (str_mul (u "=") 40);
         Prompt (u "Enter input file path: ");
         Prompt (u "Enter shift value (1-25): ");
         Prompt (u "Enter output file path (or press Enter for auto-naming): ");
         Print (nl ++ u "🔄 Decrypting file...");
         Print (error_line (lit "gone.txt")
                  (FileNotFoundError (lit "[Errno 2] No such file or directory"))) ]
       [],
     Done tt).
Proof.
  apply (file_menus_stop_after_read_error latin1_db latin1_builtins (mem_os posixpath)
           true (lit "gone.txt") (lit "3") (lit "") (lit "gone.txt") 3
           (FileNotFoundError (lit "[Errno 2] No such file or directory")) []
           {| disk := [] : FS (mem_os posixpath); screen := [];
              keyboard := [Line (lit "gone.txt"); Line (lit "3"); Line (lit "")];
              running := true |});
    try reflexivity; [discriminate | lia].
Defined.

Lemma str_eqb_eq a b : str_eqb a b = true <-> a = b.
Proof.
  unfold str_eqb. destruct (list_eq_dec Z.eq_dec a b); split; congruence.
Qed.

Lemma str_in_false x l : str_in x l = false -> Forall (fun y => str_eqb x y = false) l.
Proof.
  unfold str_in. induction l as [|y l IH]; cbn [existsb]; intros H; constructor.
  - now apply orb_false_elim in H.
  - apply IH. now apply orb_false_elim in H.
Qed.

Lemma cli_bind_print {os B} line (k : unit -> cli os B) (st : session os) :
  cli_bind (cli_print line) k st = k tt (shown st [Print line] (keyboard st)).
Proof. reflexivity. Qed.

Lemma cli_bind_assoc {os A B C} (m : cli os A) (f : A -> cli os B) (k : B -> cli os C)
    (st : session os) :
  cli_bind (cli_bind m f) k st = cli_bind m (fun a => cli_bind (f a) k) st.
Proof.
  unfold cli_bind. destruct (m st) as [st1 [a|s|]]; reflexivity.
Qed.

Lemma cli_bind_set_running {os B} b (k : unit -> cli os B) (st : session os) :
  cli_bind (set_running b) k st
  = k tt {| disk := disk st; screen := screen st; keyboard := keyboard st;
            running := b |}.
Proof. reflexivity. Qed.

Lemma cli_bind_get_running {os B} (k : bool -> cli os B) (st : session os) :
  cli_bind get_running k st = k (running st) st.
Proof. reflexivity. Qed.

Lemma run_turn_choice_8 db py os line keys (st : session os) :
  keyboard st = Line line :: keys ->
  str_strip py line = u "8" ->
  CaesarCipherCLI.run_turn db py os st
  = ({| disk := disk st;
        screen :=
          screen (fst (CaesarCipherCLI.print_menu os st))
          ++ [ Prompt (nl ++ u "Enter your choice (1-8): ");
               Print (nl ++ str_mul (u "=") 40);
               Print (u "👋 Thank you for using Caesar Cipher Tool!");
               Print (u "💼 Internship project completed successfully");
               Print (u "🎓 Great job learning cryptography basics!");
               Print (str_mul (u "=") 40) ];
        keyboard := keys;
        running := false |},
     Done tt).
Proof.
  intros Hk Hs.
  unfold CaesarCipherCLI.run_turn, cli_bind at 1.
  unfold CaesarCipherCLI.print_menu. rewrite print_lines_shown.
  unfold cli_bind at 1. input_line Hk Hs.
  unfold CaesarCipherCLI.dispatch.
  change (str_eqb (u "8") (u "1")) with false.
  change (str_eqb (u "8") (u "2")) with false.
  change (str_eqb (u "8") (u "3")) with false.
  change (str_eqb (u "8") (u "4")) with false.
  change (str_eqb (u "8") (u "5")) with false.
  change (str_eqb (u "8") (u "6")) with false.
  change (str_eqb (u "8") (u "7")) with false.
  change (str_eqb (u "8") (u "8")) with true.
  cbv iota.
  repeat (rewrite cli_bind_assoc, cli_bind_print).
  rewrite cli_bind_set_running, cli_bind_get_running.
  cbn [keyboard shown disk screen running andb fst cli_ret].
  rewrite <- !app_assoc. reflexivity.
Qed.

Lemma run_loop_last_turn db py os fuel (st st1 : session os) :
  running st = true ->
  CaesarCipherCLI.run_turn db py os st = (st1, Done tt) ->
  running st1 = false ->
  CaesarCipherCLI.run_loop db py os (S (S fuel)) st = (st1, Done tt).
Proof.
  intros Hrun Hturn Hstop.
  cbn [CaesarCipherCLI.run_loop]. unfold cli_bind, get_running, cli_ret.
  rewrite Hrun, Hturn, Hstop. reflexivity.
Qed.

(** X19: choosing 8 at the first menu ends the program: [main] prints the
    header, the menu, the prompt and the five closing lines, sets [running]
    to false and returns (exit status 0); the keys typed after the choice
    are left unread and the file system is untouched. *)
Theorem main_returns_on_choice_8 db py os line keys (st : session os) :
  keyboard st = Line line :: keys ->
  str_strip py line = u "8" ->
  main db py os st
  = ({| disk := disk st;
        screen :=
          screen (fst (CaesarCipherCLI.print_menu os
                         (fst (CaesarCipherCLI.print_header os st))))
          ++ [ Prompt (nl ++ u "Enter your choice (1-8): ");
               Print (nl ++ str_mul (u "=") 40);
               Print (u "👋 Thank you for using Caesar Cipher Tool!");
               Print (u "💼 Internship project completed successfully");
               Print (u "🎓 Great job learning cryptography basics!");
               Print (str_mul (u "=") 40) ];
        keyboard := keys;
        running := false |},
     Done tt).
Proof.
  intros Hk Hs.
  unfold main, try_catch, cli_bind at 1. cbn [set_running].
  unfold CaesarCipherCLI.run, cli_bind at 1.
  unfold CaesarCipherCLI.print_header at 1. rewrite print_lines_shown.
  cbn [keyboard shown]. rewrite Hk. cbn [List.length].
  erewrite run_loop_last_turn;
    [|reflexivity
     |apply (run_turn_choice_8 db py os line keys); [reflexivity|exact Hs]
     |reflexivity].
  unfold CaesarCipherCLI.print_header, CaesarCipherCLI.print_menu.
  rewrite !print_lines_shown. cbn [keyboard shown disk screen running fst].
  reflexivity.
Qed.

Lemma main_returns_on_choice_8_witness :
  main latin1_db latin1_builtins (mem_os posixpath)
    {| disk := [] : FS (mem_os posixpath); screen := [];
       keyboard := [Line (lit " 8"); Line (lit "1")]; running := false |}
  = ({| disk := [] : FS (mem_os posixpath);
        screen :=
          screen (fst (CaesarCipherCLI.print_menu (mem_os posixpath)
                         (fst (CaesarCipherCLI.print_header (mem_os posixpath)
                                 {| disk := [] : FS (mem_os posixpath); screen := [];
                                    keyboard := [Line (lit " 8"); Line (lit "1")];
                                    running := false |}))))
          ++ [ Prompt (nl ++ u "Enter your choice (1-8): ");
               Print (nl ++ str_mul (u "=") 40);
               Print (u "👋 Thank you for using Caesar Cipher Tool!");
               Print (u "💼 Internship project completed successfully");
               Print (u "🎓 Great job learning cryptography basics!");
               Print (str_mul (u "=") 40) ];
        keyboard := [Line (lit "1")];
        running := false |},
     Done tt).
Proof.
  apply (main_returns_on_choice_8 latin1_db latin1_builtins (mem_os posixpath)
           (lit " 8") [Line (lit "1")]
           {| disk := [] : FS (mem_os posixpath); screen := [];
              keyboard := [Line (lit " 8"); Line (lit "1")]; running := false |});
    reflexivity.
Defined.

(** X20: a choice that is none of 1 to 8 costs one turn: the turn prints
    the menu, the prompt and the invalid-choice line, does not ask whether
    to continue, reads no other key, and leaves [running] and the file
    system as they were. *)
Theorem run_turn_rejects_invalid_choice db py os line choice keys (st : session os) :
  keyboard st = Line line :: keys ->
  str_strip py line = choice ->
  str_in choice [u "1"; u "2"; u "3"; u "4"; u "5"; u "6"; u "7"; u "8"] = false ->
  CaesarCipherCLI.run_turn db py os st
  = (shown (fst (CaesarCipherCLI.print_menu os st))
       [ Prompt (nl ++ u "Enter your choice (1-8): ");
         Print (u "❌ Invalid choice. Please enter a number between 1 and 8.") ]
       keys,
     Done tt).
Proof.
  intros Hk Hs Hin.
  apply str_in_false in Hin.
  repeat match goal with
         | H : Forall _ (_ :: _) |- _ =>
             let H1 := fresh "Hc" in
             inversion H as [|? ? H1 ?]; subst; clear H
         end.
  unfold CaesarCipherCLI.run_turn, cli_bind at 1.
  unfold CaesarCipherCLI.print_menu. rewrite print_lines_shown.
  unfold cli_bind at 1. input_line Hk (eq_refl (str_strip py line)).
  unfold cli_bind at 1. unfold CaesarCipherCLI.dispatch.
  repeat match goal with
         | H : str_eqb _ _ = false |- _ => rewrite H
         end.
  unfold cli_print, cli_bind, get_running, cli_ret, str_in.
  cbn [keyboard shown disk screen running fst existsb].
  repeat match goal with
         | H : str_eqb _ _ = false |- _ => rewrite H
         end.
  cbn [orb]. rewrite andb_false_r. screens.
Qed.

Lemma run_turn_rejects_invalid_choice_witness :
  CaesarCipherCLI.run_turn latin1_db latin1_builtins (mem_os posixpath)
    {| disk := [] : FS (mem_os posixpath); screen := [];
       keyboard := [Line (lit "9"); CtrlC]; running := true |}
  = (shown
       (fst (CaesarCipherCLI.print_menu (mem_os posixpath)
               {| disk := [] : FS (mem_os posixpath); screen := [];
                  keyboard := [Line (lit "9"); CtrlC]; running := true |}))
       [ Prompt (nl ++ u "Enter your choice (1-8): ");
         Print (u "❌ Invalid choice. Please enter a number between 1 and 8.") ]
       [CtrlC],
     Done tt).
Proof.
  apply (run_turn_rejects_invalid_choice latin1_db latin1_builtins (mem_os posixpath)
           (lit "9") (lit "9") [CtrlC]
           {| disk := [] : FS (mem_os posixpath); screen := [];
              keyboard := [Line (lit "9"); CtrlC]; running := true |});
    reflexivity.
Defined.

(** X21: after a choice from 1 to 7 whose handler returns while [running]
    is true, the turn asks whether to continue and reads one line: when that
    line, stripped and put in lower case, is "q", it prints the goodbye line
    and sets [running] to false, which ends the loop; any other answer
    leaves [running] true. *)
Theorem run_turn_asks_to_continue db py os line choice keys0 st2 reply answer keys
    (st : session os) :
  keyboard st = Line line :: keys0 ->
  str_strip py line = choice ->
  str_in choice [u "1"; u "2"; u "3"; u "4"; u "5"; u "6"; u "7"] = true ->
  CaesarCipherCLI.dispatch db py os choice
    (shown (fst (CaesarCipherCLI.print_menu os st))
       [Prompt (nl ++ u "Enter your choice (1-8): ")] keys0)
  = (st2, Done tt) ->
  running st2 = true ->
  keyboard st2 = Line reply :: keys ->
  str_strip py reply = answer ->
  CaesarCipherCLI.run_turn db py os st
  = if str_eqb (str_lower py answer) (u "q")
    then ({| disk := disk st2;
             screen := screen st2
                       ++ [ Prompt (nl ++ u "Press Enter to continue or 'q' to quit: ");
                            Print (nl ++ u "👋 Goodbye!") ];
             keyboard := keys;
             running := false |},
          Done tt)
    else (shown st2 [Prompt (nl ++ u "Press Enter to continue or 'q' to quit: ")] keys,
          Done tt).
Proof.
  intros Hk Hs Hin Hd Hrun Hk2 Hr.
  unfold CaesarCipherCLI.print_menu in Hd. rewrite print_lines_shown in Hd.
  unfold shown in Hd. cbn [fst keyboard disk screen running] in Hd.
  unfold CaesarCipherCLI.run_turn, cli_bind at 1.
  unfold CaesarCipherCLI.print_menu. rewrite print_lines_shown.
  unfold cli_bind at 1. input_line Hk Hs. unfold shown.
  cbn [keyboard disk screen running].
  unfold cli_bind at 1. rewrite Hd.
  unfold cli_bind at 1. cbn [get_running]. rewrite Hrun, Hin. cbn [andb].
  unfold cli_bind at 1. rewrite get_user_input_cases, Hk2, Hr.
  destruct (str_eqb (str_lower py answer) (u "q")).
  - unfold cli_bind, cli_print, set_running.
    cbn [keyboard shown disk screen running]. rewrite <- app_assoc. reflexivity.
  - unfold cli_ret, shown. rewrite Hrun. reflexivity.
Qed.

Lemma run_turn_asks_to_continue_witness :
  CaesarCipherCLI.run_turn latin1_db latin1_builtins (mem_os posixpath)
    {| disk := [] : FS (mem_os posixpath); screen := [];
       keyboard := [Line (lit "7"); Line (lit " Q ")]; running := true |}
  = if str_eqb (str_lower latin1_builtins (lit "Q")) (u "q")
    then
      ({| disk :=
            disk (fst (CaesarCipherCLI.show_help (mem_os posixpath)
                         (shown
                            (fst (CaesarCipherCLI.print_menu (mem_os posixpath)
                                    {| disk := [] : FS (mem_os posixpath); screen := [];
                                       keyboard := [Line (lit "7"); Line (lit " Q ")];
                                       running := true |}))
                            [Prompt (nl ++ u "Enter your choice (1-8): ")]
                            [Line (lit " Q ")])));
          screen :=
            screen (fst (CaesarCipherCLI.show_help (mem_os posixpath)
                           (shown
                              (fst (CaesarCipherCLI.print_menu (mem_os posixpath)
                                      {| disk := [] : FS (mem_os posixpath); screen := [];
                                         keyboard := [Line (lit "7"); Line (lit " Q ")];
                                         running := true |}))
                              [Prompt (nl ++ u "Enter your choice (1-8): ")]
                              [Line (lit " Q ")])))
            ++ [ Prompt (nl ++ u "Press Enter to continue or 'q' to quit: ");
                 Print (nl ++ u "👋 Goodbye!") ];
          keyboard := [];
          running := false |},
       Done tt)
    else
      (shown
         (fst (CaesarCipherCLI.show_help (mem_os posixpath)
                 (shown
                    (fst (CaesarCipherCLI.print_menu (mem_os posixpath)
                            {| disk := [] : FS (mem_os posixpath); screen := [];
                               keyboard := [Line (lit "7"); Line (lit " Q ")];
                               running := true |}))
                    [Prompt (nl ++ u "Enter your choice (1-8): ")]
                    [Line (lit " Q ")])))
         [Prompt (nl ++ u "Press Enter to continue or 'q' to quit: ")] [],
       Done tt).
Proof.
  apply (run_turn_asks_to_continue latin1_db latin1_builtins (mem_os posixpath)
           (lit "7") (lit "7") [Line (lit " Q ")]
           (fst (CaesarCipherCLI.show_help (mem_os posixpath)
                   (shown
                      (fst (CaesarCipherCLI.print_menu (mem_os posixpath)
                              {| disk := [] : FS (mem_os posixpath); screen := [];
                                 keyboard := [Line (lit "7"); Line (lit " Q ")];
                                 running := true |}))
                      [Prompt (nl ++ u "Enter your choice (1-8): ")]
                      [Line (lit " Q ")])))
           (lit " Q ") (lit "Q") []
           {| disk := [] : FS (mem_os posixpath); screen := [];
              keyboard := [Line (lit "7"); Line (lit " Q ")]; running := true |});
    vm_compute; reflexivity.
Defined.

(** *** What the shell does to the file system *)

Lemma keeps_disk_ret {os A} (a : A) : keeps_disk (os := os) (cli_ret a).
Proof. intros st. reflexivity. Qed.

Lemma keeps_disk_print {os} line : keeps_disk (os := os) (cli_print line).
Proof. intros st. reflexivity. Qed.

Lemma keeps_disk_result {os A} (r : result A) : keeps_disk (os := os) (cli_result r).
Proof. intros st. reflexivity. Qed.

Lemma keeps_disk_bind {os A B} (m : cli os A) (k : A -> cli os B) :
  keeps_disk m -> (forall a, keeps_disk (k a)) -> keeps_disk (cli_bind m k).
Proof.
  intros Hm Hk st. unfold cli_bind. specialize (Hm st).
  destruct (m st) as [st1 [a|s|]]; cbn [fst] in *; [|exact Hm|exact Hm].
  rewrite (Hk a st1). exact Hm.
Qed.

Lemma keeps_disk_except {os A} (body : cli os A) handler :
  keeps_disk body -> (forall s, keeps_disk (handler s)) ->
  keeps_disk (except_Exception body handler).
Proof.
  intros Hb Hh st. unfold except_Exception, try_catch. specialize (Hb st).
  destruct (body st) as [st1 [a|s|]]; cbn [fst] in *; [exact Hb| |exact Hb].
  destruct (signal_is_Exception s); [|exact Hb].
  rewrite (Hh s st1). exact Hb.
Qed.

Lemma keeps_disk_print_lines {os} lines : keeps_disk (os := os) (print_lines lines).
Proof. intros st. rewrite print_lines_shown. reflexivity. Qed.

Lemma keeps_disk_for {os A} (l : list A) (body : A -> cli os unit) :
  (forall x, keeps_disk (body x)) -> keeps_disk (cli_for l body).
Proof.
  intros H. induction l as [|x l IH]; cbn [cli_for].
  - apply keeps_disk_ret.
  - apply keeps_disk_bind; [apply H|intros _; exact IH].
Qed.

Lemma keeps_disk_get_user_input py os prompt :
  keeps_disk (CaesarCipherCLI.get_user_input py os prompt).
Proof.
  intros st. rewrite get_user_input_cases.
  destruct (keyboard st) as [|[s| |msg] keys]; reflexivity.
Qed.

Lemma keeps_disk_get_valid_shift py os prompt :
  keeps_disk (CaesarCipherCLI.get_valid_shift py os prompt).
Proof.
  intros st. unfold CaesarCipherCLI.get_valid_shift.
  pose proof (get_valid_shift_loop_spec py os prompt
                (S (List.length (keyboard st))) st ltac:(lia)) as H.
  destruct (CaesarCipherCLI.get_valid_shift_loop py os
              (S (List.length (keyboard st))) prompt st) as [st' [n|s|]];
    cbn [fst]; [| |destruct H]; apply H.
Qed.

Ltac disk_steps :=
  repeat match goal with
         | |- keeps_disk (cli_bind _ _) => apply keeps_disk_bind; [|intros ?]
         | |- keeps_disk (cli_print _) => apply keeps_disk_print
         | |- keeps_disk (cli_ret _) => apply keeps_disk_ret
         | |- keeps_disk (cli_result _) => apply keeps_disk_result
         | |- keeps_disk (print_lines _) => apply keeps_disk_print_lines
         | |- keeps_disk (CaesarCipherCLI.get_user_input _ _ _) =>
             apply keeps_disk_get_user_input
         | |- keeps_disk (CaesarCipherCLI.get_valid_shift _ _ _) =>
             apply keeps_disk_get_valid_shift
         | |- keeps_disk (except_Exception _ _) => apply keeps_disk_except; [|intros ?]
         | |- keeps_disk (cli_for _ _) => apply keeps_disk_for; intros ?
         | |- keeps_disk (if ?b then _ else _) => destruct b
         | |- keeps_disk (let '(_, _) := ?p in _) => destruct p
         end.

(** X23: only the two file menus write files: the message handlers, the
    brute-force handler, the examples and the help leave the file system
    exactly as it was, whatever is typed and however they end. *)
Theorem message_handlers_keep_file_system db py os (st : session os) :
  disk (fst (CaesarCipherCLI.encrypt_message db py os st)) = disk st
  /\ disk (fst (CaesarCipherCLI.decrypt_message db py os st)) = disk st
  /\ disk (fst (CaesarCipherCLI.brute_force_decrypt db py os st)) = disk st
  /\ disk (fst (CaesarCipherCLI.show_examples db os st)) = disk st
  /\ disk (fst (CaesarCipherCLI.show_help os st)) = disk st.
Proof.
  assert (H1 : keeps_disk (CaesarCipherCLI.encrypt_message db py os))
    by (unfold CaesarCipherCLI.encrypt_message; disk_steps).
  assert (H2 : keeps_disk (CaesarCipherCLI.decrypt_message db py os))
    by (unfold CaesarCipherCLI.decrypt_message; disk_steps).
  assert (H3 : keeps_disk (CaesarCipherCLI.brute_force_decrypt db py os))
    by (unfold CaesarCipherCLI.brute_force_decrypt; disk_steps).
  assert (H4 : keeps_disk (CaesarCipherCLI.show_examples db os))
    by (unfold CaesarCipherCLI.show_examples; disk_steps).
  assert (H5 : keeps_disk (CaesarCipherCLI.show_help os))
    by (unfold CaesarCipherCLI.show_help; disk_steps).
  split; [apply H1|split; [apply H2|split; [apply H3|split; [apply H4|apply H5]]]].
Qed.
